(** * ChatBot.jsx: the chat widget as a state-transition system

    A shallow embedding of [src/chatbot_frontend/src/ChatBot.jsx].  The React
    component keeps five pieces of hook state and has two asynchronous
    functions, [startSession] and [sendMessage].  Each asynchronous function is
    cut at its [await]: the part that runs when it is called, and the part that
    runs when the awaited request settles.  State setters are functions on the
    hook state; network requests and console output are returned as effects.

    Platform functions are modelled from ECMAScript, not from the component:
    [String.prototype.trim], truthiness, property access, [fetch] and
    [Response.json] (as the outcome they settle with).  Of React the model
    keeps what the component relies on: a handler sees the state of the last
    committed render, the setter calls of one handler run are rendered
    together, an updater function is run by the render, and a render that
    throws (an updater that throws, or a message text that is no valid child
    of the open view) takes the component off the page.  The auto-scroll
    effect touches the DOM only and is left out. *)

From Stdlib Require Import NArith String Ascii.
From stdpp Require Import base option list.

Local Open Scope N_scope.
Set Warnings "-register-all".

(** ** JavaScript strings: sequences of UTF-16 code units *)

Module JsString.

Definition t := list N.

(** An ASCII literal of the source, code unit by code unit. *)
Definition lit (s : string) : t := map N_of_ascii (list_ascii_of_string s).

Definition eqb (a b : t) : bool := bool_decide (a = b).

(** ECMAScript WhiteSpace: TAB, VT, FF, ZWNBSP and the Unicode
    space separators. *)
Definition isWhiteSpace (c : N) : bool :=
  (c =? 0x0009) || (c =? 0x000B) || (c =? 0x000C) || (c =? 0xFEFF)
  || (c =? 0x0020) || (c =? 0x00A0) || (c =? 0x1680)
  || ((0x2000 <=? c) && (c <=? 0x200A))
  || (c =? 0x202F) || (c =? 0x205F) || (c =? 0x3000).

(** ECMAScript LineTerminator: LF, CR, LS, PS. *)
Definition isLineTerminator (c : N) : bool :=
  (c =? 0x000A) || (c =? 0x000D) || (c =? 0x2028) || (c =? 0x2029).

(** What [trim] strips. *)
Definition isTrimmable (c : N) : bool := isWhiteSpace c || isLineTerminator c.

Fixpoint dropWhile (p : N -> bool) (s : t) : t :=
  match s with
  | [] => []
  | c :: s' => if p c then dropWhile p s' else s
  end.

Definition trimStart (s : t) : t := dropWhile isTrimmable s.
Definition trimEnd (s : t) : t := reverse (dropWhile isTrimmable (reverse s)).

(** [String.prototype.trim]. *)
Definition trim (s : t) : t := trimEnd (trimStart s).

(** A string all of whose code units are stripped by [trim]
    (the empty string included). *)
Definition blank (s : t) : Prop := Forall (fun c => isTrimmable c = true) s.

End JsString.

Abbreviation jsstring := JsString.t.

(** ** JavaScript values *)

(** What [JSON.parse] can return.  A number is an IEEE 754 binary64 value,
    kept as its 64 bits; an object is the list of its own properties. *)
Inductive json : Type :=
| JNull
| JBool (b : bool)
| JNum (bits : N)
| JStr (s : jsstring)
| JArr (items : list json)
| JObj (props : list (jsstring * json)).

(** The values the component handles: a JSON value, a string literal of the
    source (also [JStr]), or [undefined]. *)
Inductive jsval : Type :=
| Undefined
| Json (v : json).

Coercion Json : json >-> jsval.

(** The numbers that ToBoolean sends to false: +0 and -0 (every bit but the
    sign is zero) and the NaNs (exponent all ones, fraction not zero). *)
Definition isZeroOrNaN (bits : N) : bool :=
  let magnitude := N.land bits 0x7FFFFFFFFFFFFFFF in
  (magnitude =? 0) || (0x7FF0000000000000 <? magnitude).

(** ToBoolean. *)
Definition truthy (v : jsval) : bool :=
  match v with
  | Undefined => false
  | Json JNull => false
  | Json (JBool b) => b
  | Json (JNum bits) => negb (isZeroOrNaN bits)
  | Json (JStr s) => negb (JsString.eqb s [])
  | Json (JArr _) => true
  | Json (JObj _) => true
  end.

(** ** Exceptions and the try/catch monad *)

Inductive Exn : Type :=
| FetchRejected      (* fetch() rejects: the request could not be made *)
| BodyNotJson        (* res.json() rejects: the body is not JSON *)
| PropertyOfNullish. (* TypeError: property read on null or undefined *)

Inductive result (A : Type) : Type :=
| Ok (a : A)
| Throw (e : Exn).

Arguments Ok {A} a.
Arguments Throw {A} e.

Definition bind {A B} (r : result A) (k : A -> result B) : result B :=
  match r with
  | Ok a => k a
  | Throw e => Throw e
  end.

Notation "'let!' x ':=' r 'in' k" := (bind r (fun x => k))
  (at level 10, x name, r at level 100, k at level 200).

Fixpoint ownProperty (props : list (jsstring * json)) (key : jsstring) : jsval :=
  match props with
  | [] => Undefined
  | (k, v) :: rest => if JsString.eqb k key then Json v else ownProperty rest key
  end.

(** [v.key] for a key that no built-in prototype defines (the component reads
    only [reply] and [session_id]): a TypeError on null and undefined, the own
    property of an object, and [undefined] on everything else. *)
Definition getProp (v : jsval) (key : jsstring) : result jsval :=
  match v with
  | Undefined => Throw PropertyOfNullish
  | Json JNull => Throw PropertyOfNullish
  | Json (JObj props) => Ok (ownProperty props key)
  | Json _ => Ok Undefined
  end.

(** ** The component's data *)

(** The two values of [sender]: the literals "user" and "bot". *)
Inductive Sender : Type := user | bot.

Record Message : Type := mkMessage { sender : Sender; text : jsval }.

(** The five [useState] hooks of [ChatBot]. *)
Record State : Type := mkState {
  sessionId : jsval;
  messages : list Message;
  input : jsstring;
  loading : bool;
  isOpen : bool
}.

(** A call of a state setter.  [setMessages] is only ever called with an
    updater function, which React runs later, while rendering: whatever the
    updater's body throws is thrown by the render, not by the caller. *)
Inductive Update : Type :=
| SetSessionId (v : jsval)
| SetMessages (updater : list Message -> result (list Message))
| SetInput (v : jsstring)
| SetLoading (b : bool)
| SetIsOpen (b : bool).

Definition applyUpdate (u : Update) (s : State) : result State :=
  match u with
  | SetSessionId v =>
      Ok (mkState v (messages s) (input s) (loading s) (isOpen s))
  | SetMessages updater =>
      let! next := updater (messages s) in
      Ok (mkState (sessionId s) next (input s) (loading s) (isOpen s))
  | SetInput v =>
      Ok (mkState (sessionId s) (messages s) v (loading s) (isOpen s))
  | SetLoading b =>
      Ok (mkState (sessionId s) (messages s) (input s) b (isOpen s))
  | SetIsOpen b =>
      Ok (mkState (sessionId s) (messages s) (input s) (loading s) b)
  end.

(** The next render: every queued update applied to the hook state.  Each
    setter owns one field, so the order between different setters is
    immaterial. *)
Fixpoint render (queue : list Update) (s : State) : result State :=
  match queue with
  | [] => Ok s
  | u :: rest => let! s' := applyUpdate u s in render rest s'
  end.

(** ** Requests and responses *)

(** The text [JSON.stringify] makes of an object literal, kept as the literal's
    properties. *)
Inductive Body : Type :=
| JSON_stringify (props : list (jsstring * jsval)).

Record Request : Type := mkRequest {
  url : jsstring;
  method : jsstring;
  headers : list (jsstring * jsstring);
  body : option Body
}.

(** What [fetch] resolves with: the HTTP status, and the body as [res.json()]
    will parse it, [None] when it is not JSON. *)
Record Response : Type := mkResponse {
  status : N;
  parsed : option json
}.

Definition res_json (res : Response) : result jsval :=
  match parsed res with
  | Some data => Ok (Json data)
  | None => Throw BodyNotJson
  end.

(** [const res = await fetch(...); const data = await res.json();] once the
    request has settled with [r]. *)
Definition fetched_json (r : result Response) : result jsval :=
  let! res := r in res_json res.

Inductive Effect : Type :=
| Fetch (req : Request)
| ConsoleError (msg : jsstring) (err : Exn).

Definition BASE_URL : jsstring := JsString.lit "http://localhost:8000".

(** ** The component *)

Import JsString.

(** [useState([{ sender: "bot", text: "Hello! ..." }])]. *)
Definition greeting : Message :=
  mkMessage bot (JStr (lit "Hello! I'm OmegaAI. How can I help you today?")).

(** The hook state of the first render. *)
Definition initialState : State :=
  {| sessionId := JNull;
     messages := [greeting];
     input := [];
     loading := false;
     isOpen := false |}.

(** The text of the catch branch of [sendMessage]: U+26A0 U+FE0F and an
    ASCII sentence. *)
Definition fallbackText : jsstring :=
  [0x26A0; 0xFE0F] ++ lit " I couldn't connect to the server.".

Definition fallback : Message := mkMessage bot (JStr fallbackText).

(** A handler's outcome: the setter calls it made, in order, and its effects. *)
Definition Outcome : Type := list Update * list Effect.

Definition sessionRequest : Request :=
  {| url := BASE_URL ++ lit "/session/start";
     method := lit "POST";
     headers := [];
     body := None |}.

(** [startSession], up to [await fetch(...)]. *)
Definition startSession_call : Outcome := ([], [Fetch sessionRequest]).

(** [startSession], from the moment the request settles with [r]. *)
Definition startSession_resume (r : result Response) : Outcome :=
  match (let! data := fetched_json r in getProp data (lit "session_id")) with
  | Ok v => ([SetSessionId v], [])
  | Throw err => ([], [ConsoleError (lit "Failed to start session") err])
  end.

(** The effect with the empty dependency list: it runs after the first render
    only. *)
Definition mountEffect (s : State) : Outcome :=
  if negb (truthy (sessionId s)) then startSession_call else ([], []).

(** The guard on the first line of [sendMessage]. *)
Definition rejected (s : State) : bool :=
  negb (truthy (JStr (trim (input s)))) || loading s || negb (truthy (sessionId s)).

Definition smartRequest (message session_id : jsval) : Request :=
  {| url := BASE_URL ++ lit "/smart";
     method := lit "POST";
     headers := [(lit "Content-Type", lit "application/json")];
     body := Some (JSON_stringify
                     [(lit "message", message); (lit "session_id", session_id)]) |}.

(** [sendMessage], up to [await fetch(...)].  [s] is the state of the render
    whose handler is invoked. *)
Definition sendMessage_call (s : State) : Outcome :=
  if rejected s then ([], [])
  else
    let userMsg := {| sender := user; text := JStr (trim (input s)) |} in
    ([SetMessages (fun prev => Ok (prev ++ [userMsg]));
      SetLoading true;
      SetInput []],
     [Fetch (smartRequest (text userMsg) (sessionId s))]).

(** [sendMessage], from the moment the request settles with [r].  In the try
    block the argument of [setMessages] is the arrow function
    [prev => [...prev, { sender: "bot", text: data.reply }]]: [data.reply] is
    read when React runs that function for the next render, not by the call
    of [setMessages], so a TypeError it throws is outside the try block. *)
Definition sendMessage_resume (r : result Response) : Outcome :=
  (match fetched_json r with
   | Ok data =>
       [SetMessages (fun prev =>
          let! reply := getProp data (lit "reply") in
          Ok (prev ++ [{| sender := bot; text := reply |}]))]
   | Throw _ =>
       [SetMessages (fun prev => Ok (prev ++ [fallback]))]
   end ++ [SetLoading false],
   []).

(** The click handlers that are rendered: [setIsOpen(true)] on the bubble and
    the launcher of the closed view, [setIsOpen(false)] on the minimise button
    of the open view. *)
Definition clickToggle (s : State) : Outcome :=
  if negb (isOpen s) then ([SetIsOpen true], []) else ([SetIsOpen false], []).

(** [onChange] of the text field. *)
Definition onChange (v : jsstring) : Outcome := ([SetInput v], []).

(** ** What React can display *)

(** [{msg.text}] in the open view: a string or a number is shown, a boolean,
    [null] and [undefined] show nothing, an array shows its items, and a plain
    object is no valid child: React throws on it. *)
Fixpoint renderableJson (v : json) : bool :=
  match v with
  | JObj _ => false
  | JArr items => List.forallb renderableJson items
  | JNull | JBool _ | JNum _ | JStr _ => true
  end.

Definition renderable (v : jsval) : bool :=
  match v with
  | Undefined => true
  | Json j => renderableJson j
  end.

Definition allRenderable (ms : list Message) : bool :=
  List.forallb (fun m => renderable (text m)) ms.

(** Whether [ChatBot] returns its view in the state [s] or throws: the closed
    view shows no message, the open view shows [{msg.text}] of every one. *)
Definition displayable (s : State) : bool :=
  negb (isOpen s) || allRenderable (messages s).

(** ** The widget in its environment *)

(** [ui] is the hook state of the last render that was committed.  A render
    that throws is not committed: there is no error boundary around [ChatBot],
    so React unmounts the tree and [alive] becomes false for good.  The
    pending fields count the requests that have not settled yet; [log] is every
    effect of the component so far, oldest first. *)
Record World : Type := mkWorld {
  ui : State;
  alive : bool;
  sessionPending : bool;
  smartPending : nat;
  log : list Effect
}.

(** The component is on the page: no render has thrown, and the state it
    holds is one that the component displays (a record whose state cannot be
    displayed stands for no page at all). *)
Definition mounted (w : World) : bool := alive w && displayable (ui w).

Definition isFetch (e : Effect) : bool :=
  match e with Fetch _ => true | ConsoleError _ _ => false end.

(** The effects happen, and the queued updates are rendered if the component
    is still there: the updaters run, then the component returns its view for
    the new state.  If either throws, nothing is committed and the component
    is unmounted. *)
Definition commit (o : Outcome) (w : World) : World :=
  let '(queue, effects) := o in
  if mounted w then
    match render queue (ui w) with
    | Ok s' =>
        if displayable s' then
          mkWorld s' true (sessionPending w) (smartPending w) (log w ++ effects)
        else
          mkWorld (ui w) false (sessionPending w) (smartPending w) (log w ++ effects)
    | Throw _ =>
        mkWorld (ui w) false (sessionPending w) (smartPending w) (log w ++ effects)
    end
  else
    mkWorld (ui w) false (sessionPending w) (smartPending w) (log w ++ effects).

Inductive Event : Type :=
| ClickToggle
| ChangeInput (v : jsstring)
| Submit                                (* Enter in the field, or the send button *)
| SessionSettled (r : result Response)  (* the request of startSession settles *)
| SmartSettled (r : result Response).   (* a request of sendMessage settles *)

(** One turn of the event loop.  User events reach a handler only while the
    component is mounted; a settlement resumes an asynchronous function only if
    one is waiting for it. *)
Definition step (w : World) (e : Event) : World :=
  match e with
  | ClickToggle =>
      if mounted w then commit (clickToggle (ui w)) w else w
  | ChangeInput v =>
      if mounted w then commit (onChange v) w else w
  | Submit =>
      if mounted w then
        let o := sendMessage_call (ui w) in
        commit o (mkWorld (ui w) (alive w) (sessionPending w)
                    (smartPending w + length (List.filter isFetch (snd o)))%nat (log w))
      else w
  | SessionSettled r =>
      if sessionPending w then
        commit (startSession_resume r)
          (mkWorld (ui w) (alive w) false (smartPending w) (log w))
      else w
  | SmartSettled r =>
      match smartPending w with
      | O => w
      | S n =>
          commit (sendMessage_resume r)
            (mkWorld (ui w) (alive w) (sessionPending w) n (log w))
      end
  end.

Definition run (w : World) (events : list Event) : World :=
  fold_left step events w.

(** The widget after its first render and the mount effect. *)
Definition init : World :=
  let o := mountEffect initialState in
  commit o (mkWorld initialState true
              (existsb isFetch (snd o)) 0 []).

(** * The vocabulary of the properties *)

(** The user message of an accepted draft, and the world after the handler
    returned at its [await]. *)
Definition userMessage (s : State) : Message :=
  {| sender := user; text := JStr (trim (input s)) |}.

Definition submitted (w : World) : World :=
  {| ui := {| sessionId := sessionId (ui w);
              messages := messages (ui w) ++ [userMessage (ui w)];
              input := [];
              loading := true;
              isOpen := isOpen (ui w) |};
     alive := true;
     sessionPending := sessionPending w;
     smartPending := S (smartPending w);
     log := log w ++ [Fetch (smartRequest (text (userMessage (ui w)))
                                           (sessionId (ui w)))] |}.

(** A request that fails: [fetch] rejects, or the body is not JSON. *)
Definition requestFailed (r : result Response) : Prop :=
  match r with
  | Throw _ => True
  | Ok res => parsed res = None
  end.

(** The world after a continuation of [sendMessage] whose render commits
    with [m] appended. *)
Definition answered (m : Message) (w : World) : World :=
  {| ui := {| sessionId := sessionId (ui w);
              messages := messages (ui w) ++ [m];
              input := input (ui w);
              loading := false;
              isOpen := isOpen (ui w) |};
     alive := true;
     sessionPending := sessionPending w;
     smartPending := pred (smartPending w);
     log := log w |}.

(** The world after a render that threw, with [n] requests still in flight. *)
Definition unmountedWith (n : nat) (w : World) : World :=
  {| ui := ui w;
     alive := false;
     sessionPending := sessionPending w;
     smartPending := n;
     log := log w |}.

(** The state after a click on the toggle, if its render commits. *)
Definition toggled (s : State) : State :=
  {| sessionId := sessionId s;
     messages := messages s;
     input := input s;
     loading := loading s;
     isOpen := negb (isOpen s) |}.

Definition isSmartSettled (e : Event) : bool :=
  match e with SmartSettled _ => true | _ => false end.

Definition isSessionSettled (e : Event) : bool :=
  match e with SessionSettled _ => true | _ => false end.

(** [w] is [w0] as far as an exchange in flight is concerned. *)
Record awaiting (w0 w : World) : Prop := mkAwaiting {
  awaiting_mounted : mounted w = true;
  awaiting_loading : loading (ui w) = true;
  awaiting_messages : messages (ui w) = messages (ui w0);
  awaiting_pending : smartPending w = smartPending w0;
  awaiting_requests : List.filter isFetch (log w) = List.filter isFetch (log w0)
}.

(** A setter call that can only extend the transcript, as every updater of
    the form [prev => [...prev, m]] does. *)
Definition appender (u : Update) : Prop :=
  match u with
  | SetMessages updater =>
      forall prev next, updater prev = Ok next -> prev `prefix_of` next
  | _ => True
  end.

Definition isSessionStart (e : Effect) : bool :=
  match e with
  | Fetch req => eqb (url req) (BASE_URL ++ lit "/session/start")
  | ConsoleError _ _ => false
  end.

(** A widget that has sent nothing yet: [pending] tells whether the session
    request is still in flight, [l] is the log. *)
Record idle (pending : bool) (sid : jsval) (l : list Effect) (w : World) : Prop := mkIdle {
  idle_mounted : mounted w = true;
  idle_pending : sessionPending w = pending;
  idle_sessionId : sessionId (ui w) = sid;
  idle_messages : messages (ui w) = [greeting];
  idle_loading : loading (ui w) = false;
  idle_smart : smartPending w = O;
  idle_log : log w = l
}.

(** The catch branch of [startSession]: the request failed, or its body
    parsed to [null] and reading [session_id] threw. *)
Definition sessionCaught (r : result Response) : Prop :=
  requestFailed r \/ fetched_json r = Ok (Json JNull).

(** Concrete worlds used below: a session "abc" has been obtained, the panel is
    open and a draft has been typed. *)
Definition sessionGranted : result Response :=
  Ok {| status := 200; parsed := Some (JObj [(lit "session_id", JStr (lit "abc"))]) |}.

Definition readyWith (draft : jsstring) : World :=
  run init [SessionSettled sessionGranted; ClickToggle; ChangeInput draft].

(** ** What [ChatBot] returns: the view *)

(** One [<div key={idx}>] of [messages.map((msg, idx) => ...)]: its key, its
    class, whether the bot avatar is there, the class of the bubble and the
    [{msg.text}] inside. *)
Record Row : Type := mkRow {
  rowKey : nat;
  rowClass : jsstring;
  avatar : bool;
  bubbleClass : jsstring;
  content : jsval
}.

Definition renderMessage (idx : nat) (msg : Message) : Row :=
  {| rowKey := idx;
     rowClass :=
       lit "flex " ++ match sender msg with
                      | user => lit "justify-end"
                      | bot => lit "justify-start"
                      end;
     avatar := match sender msg with bot => true | user => false end;
     bubbleClass :=
       lit "px-5 py-3 max-w-[80%] text-[15px] leading-relaxed shadow-sm whitespace-pre-wrap "
       ++ match sender msg with
          | user => lit "bg-[#2b3b7c] text-white rounded-2xl rounded-br-sm"
          | bot => lit "bg-white text-gray-800 border border-gray-100 rounded-2xl rounded-tl-sm shadow-sm"
          end;
     content := text msg |}.

(** The [<input type="text">]. *)
Record TextField : Type := mkTextField {
  placeholder : jsstring;
  value : jsstring;
  fieldDisabled : bool
}.

(** The send [<button>]. *)
Record SendButton : Type := mkSendButton {
  buttonClass : jsstring;
  buttonDisabled : bool
}.

(** The closed view has the "Hi there" bubble and the launcher, both with
    [onClick={() => setIsOpen(true)}].  The open view has the minimise button,
    the rows of the transcript, the spinner ([loading && ...]), the field and
    the send button; its fixed decoration is left out. *)
Inductive View : Type :=
| ClosedView
| OpenView (rows : list Row) (spinner : bool) (field : TextField) (button : SendButton).

Definition view (s : State) : View :=
  if negb (isOpen s) then ClosedView
  else
    OpenView
      (imap renderMessage (messages s))
      (loading s)
      {| placeholder := if truthy (sessionId s) then lit "Type a message..."
                        else lit "Connecting...";
         value := input s;
         fieldDisabled := loading s |}
      {| buttonClass :=
           lit "p-2 rounded-full transition duration-200 flex items-center justify-center "
           ++ (if truthy (JStr (trim (input s)))
               then lit "bg-[#2b3b7c] text-white shadow-md hover:bg-blue-900"
               else lit "bg-gray-200 text-gray-400 cursor-not-allowed");
         buttonDisabled := negb (truthy (JStr (trim (input s)))) || loading s |}.

(** ** The widget as the user drives it *)

(** What a user can do to the page. *)
Inductive Gesture : Type :=
| ClickBubble
| ClickLauncher
| ClickMinimise
| TypeText (v : jsstring)
| PressKey (key : jsstring)
| ClickSend.

(** Whether the view has the element of the gesture, and has it enabled: a
    disabled field takes no input and no key, a disabled button no click. *)
Definition offered (v : View) (g : Gesture) : bool :=
  match v, g with
  | ClosedView, ClickBubble => true
  | ClosedView, ClickLauncher => true
  | OpenView _ _ _ _, ClickMinimise => true
  | OpenView _ _ field _, TypeText _ => negb (fieldDisabled field)
  | OpenView _ _ field _, PressKey _ => negb (fieldDisabled field)
  | OpenView _ _ _ button, ClickSend => negb (buttonDisabled button)
  | _, _ => false
  end.

(** The handler behind each gesture, as an event of [step]: the three
    [setIsOpen] clicks, [onChange], [onKeyDown] (which is
    [(e) => e.key === "Enter" && sendMessage()]) and the [onClick] of the send
    button ([sendMessage]). *)
Definition handlerOf (g : Gesture) : option Event :=
  match g with
  | ClickBubble | ClickLauncher | ClickMinimise => Some ClickToggle
  | TypeText v => Some (ChangeInput v)
  | PressKey key => if eqb key (lit "Enter") then Some Submit else None
  | ClickSend => Some Submit
  end.

Inductive Action : Type :=
| User (g : Gesture)
| Network (e : Event).

(** One turn of the page: a gesture reaches its handler only if the view
    offers it; the network only settles requests. *)
Definition act (w : World) (a : Action) : World :=
  match a with
  | User g =>
      if mounted w && offered (view (ui w)) g then
        match handlerOf g with
        | Some e => step w e
        | None => w
        end
      else w
  | Network e =>
      if isSessionSettled e || isSmartSettled e then step w e else w
  end.

Definition play (w : World) (actions : list Action) : World :=
  fold_left act actions w.

(** ** The shape of the worlds the widget can be in *)

Definition isUser (m : Message) : bool :=
  match sender m with user => true | bot => false end.

(** A question and its answer, and the messages of a list of them. *)
Definition dialogue (exchanges : list (Message * Message)) : list Message :=
  flat_map (fun qa => [fst qa; snd qa]) exchanges.

(** A user message carries a string that is not empty and that [trim] leaves
    as it is. *)
Definition sentText (m : Message) : Prop :=
  sender m = user -> exists t, text m = Json (JStr t) /\ t <> [] /\ trim t = t.

(** The request that [sendMessage] issues for a user message of the
    transcript, under the session id [sid]. *)
Definition requestFor (sid : jsval) (m : Message) : Effect :=
  Fetch (smartRequest (text m) sid).

(** What every world reached from [init] satisfies: at most one request is in
    flight and only while [loading], and exactly one while the mounted widget
    is loading; the transcript is a dialogue; user messages are trimmed; the
    log is the session request, at most one console error, and one request per
    user message; and without a session id nothing has been sent. *)
Record coherent (w : World) : Prop := mkCoherent {
  coherent_pending :
    smartPending w = O \/ smartPending w = 1%nat /\ loading (ui w) = true;
  coherent_waiting :
    mounted w = true -> loading (ui w) = true -> smartPending w = 1%nat;
  coherent_dialogue :
    exists exchanges waiting,
      messages (ui w) = greeting :: dialogue exchanges ++ waiting /\
      Forall (fun qa => sender (fst qa) = user /\ sender (snd qa) = bot) exchanges /\
      (if loading (ui w) then exists q, waiting = [q] /\ sender q = user
       else waiting = []);
  coherent_sent : Forall sentText (messages (ui w));
  coherent_log :
    exists errs,
      log w = Fetch sessionRequest :: errs
              ++ map (requestFor (sessionId (ui w)))
                     (List.filter isUser (messages (ui w))) /\
      (errs = [] \/
       exists err, errs = [ConsoleError (lit "Failed to start session") err] /\
                   sessionId (ui w) = JNull);
  coherent_session :
    sessionPending w = true ->
    sessionId (ui w) = JNull /\ mounted w = true /\ log w = [Fetch sessionRequest];
  coherent_absent :
    truthy (sessionId (ui w)) = false ->
    messages (ui w) = [greeting] /\ loading (ui w) = false
}.

Definition isChangeInput (e : Event) : bool :=
  match e with ChangeInput _ => true | _ => false end.

Definition isConsoleError (e : Effect) : bool :=
  match e with ConsoleError _ _ => true | Fetch _ => false end.

(** A body that parses to [null], and a reply that is an object. *)
Definition nullBody : result Response :=
  Ok {| status := 200; parsed := Some JNull |}.

Definition objectReply : result Response :=
  Ok {| status := 200;
        parsed := Some (JObj [(lit "reply", JObj [(lit "text", JStr (lit "hi"))])]) |}.

(** The bot message that the continuation of [sendMessage] appends when the
    request has settled with [r]: the fallback in the catch branch, the
    [reply] property in the try branch; none when reading it throws. *)
Definition answerTo (r : result Response) : option Message :=
  match fetched_json r with
  | Throw _ => Some fallback
  | Ok data =>
      match getProp data (lit "reply") with
      | Ok reply => Some {| sender := bot; text := reply |}
      | Throw _ => None
      end
  end.

(** * Properties *)

(** ** The platform functions on examples *)

Example trim_spaces : trim (lit "  hello world ") = lit "hello world".
Proof. reflexivity. Qed.

(** TAB, NBSP, LF and U+3000 are stripped; the zero-width space U+200B is not. *)
Example trim_unicode :
  trim ([0x0009; 0x00A0] ++ lit "a b" ++ [0x000A; 0x3000]) = lit "a b" /\
  trim [0x200B] = [0x200B].
Proof. split; reflexivity. Qed.

(** [null], [undefined], [""], [0], [-0], [NaN] and [false] are falsy;
    ["abc"], [1], [Infinity], [{}] and [[]] are truthy. *)
Example truthy_table :
  map truthy [Json JNull; Undefined; Json (JStr []); Json (JNum 0);
              Json (JNum 0x8000000000000000); Json (JNum 0x7FF8000000000000);
              Json (JBool false)]
  = [false; false; false; false; false; false; false] /\
  map truthy [Json (JStr (lit "abc")); Json (JNum 0x3FF0000000000000);
              Json (JNum 0x7FF0000000000000); Json (JObj []); Json (JArr [])]
  = [true; true; true; true; true].
Proof. split; reflexivity. Qed.

Example getProp_table :
  getProp (JObj [(lit "reply", JStr (lit "hi"))]) (lit "reply") = Ok (Json (JStr (lit "hi"))) /\
  getProp (JObj [(lit "detail", JStr (lit "no"))]) (lit "reply") = Ok Undefined /\
  getProp (JStr (lit "hi")) (lit "reply") = Ok Undefined /\
  getProp JNull (lit "reply") = Throw PropertyOfNullish.
Proof. repeat split. Qed.

(** ** [trim] *)

Section TrimFacts.

Variable p : N -> bool.

Lemma dropWhile_split (s : jsstring) :
  exists pre, s = pre ++ dropWhile p s /\ Forall (fun c => p c = true) pre.
Proof.
  induction s as [|c s [pre [Hs Hpre]]]; simpl.
  - exists []. split; [reflexivity | constructor].
  - destruct (p c) eqn:Hc.
    + exists (c :: pre). split; [simpl; congruence | constructor; assumption].
    + exists []. split; [reflexivity | constructor].
Qed.

Lemma dropWhile_head (s : jsstring) (c : N) :
  head (dropWhile p s) = Some c -> p c = false.
Proof.
  induction s as [|d s IH]; simpl; [discriminate|].
  destruct (p d) eqn:Hd; [exact IH|].
  simpl. intros [= <-]. exact Hd.
Qed.

Lemma dropWhile_nil (s : jsstring) :
  dropWhile p s = [] <-> Forall (fun c => p c = true) s.
Proof.
  induction s as [|c s IH]; simpl.
  - split; [constructor | reflexivity].
  - destruct (p c) eqn:Hc.
    + rewrite IH. split; [constructor; assumption | inversion 1; assumption].
    + split; [discriminate | inversion 1; congruence].
Qed.

End TrimFacts.

Lemma blank_app (a b : jsstring) : blank (a ++ b) <-> blank a /\ blank b.
Proof. unfold blank. apply Forall_app. Qed.

Lemma blank_reverse (a : jsstring) : blank (reverse a) <-> blank a.
Proof.
  unfold blank. rewrite !Forall_forall.
  split; intros H c Hc; apply H.
  - rewrite elem_of_reverse. exact Hc.
  - rewrite elem_of_reverse in Hc. exact Hc.
Qed.

(** [trim] gives the empty string exactly on the blank strings. *)
Lemma trim_nil (s : jsstring) : trim s = [] <-> blank s.
Proof.
  unfold trim, trimEnd, trimStart.
  destruct (dropWhile_split isTrimmable s) as [pre [Hs Hpre]].
  split.
  - intros H. apply (f_equal reverse) in H. rewrite reverse_involutive in H.
    change (reverse []) with (@nil N) in H.
    rewrite dropWhile_nil in H. fold (blank (reverse (dropWhile isTrimmable s))) in H.
    rewrite blank_reverse in H.
    rewrite Hs. apply blank_app. split; assumption.
  - intros H. apply dropWhile_nil in H. rewrite H. reflexivity.
Qed.

(** [trim s] is [s] without a blank prefix and a blank suffix. *)
Lemma trim_split (s : jsstring) :
  exists pre post, s = pre ++ trim s ++ post /\ blank pre /\ blank post.
Proof.
  unfold trim, trimEnd, trimStart.
  destruct (dropWhile_split isTrimmable s) as [pre [Hs Hpre]].
  destruct (dropWhile_split isTrimmable (reverse (dropWhile isTrimmable s)))
    as [post [Ht Hpost]].
  exists pre, (reverse post). split; [|split].
  - rewrite <- reverse_app, <- Ht, reverse_involutive. exact Hs.
  - exact Hpre.
  - apply blank_reverse. exact Hpost.
Qed.

(** What [trim] leaves neither starts nor ends with a strippable code unit. *)
Lemma trim_ends (s : jsstring) (c : N) :
  head (trim s) = Some c \/ last (trim s) = Some c -> isTrimmable c = false.
Proof.
  unfold trim, trimEnd, trimStart.
  set (t := dropWhile isTrimmable s).
  intros [H|H].
  - destruct (dropWhile_split isTrimmable (reverse t)) as [post [Ht _]].
    apply (dropWhile_head isTrimmable s).
    fold t.
    apply (f_equal reverse) in Ht. rewrite reverse_involutive, reverse_app in Ht.
    rewrite Ht.
    destruct (reverse (dropWhile isTrimmable (reverse t))); [discriminate | exact H].
  - rewrite last_reverse in H.
    apply (dropWhile_head isTrimmable (reverse t)). exact H.
Qed.

(** The first disjunct of the guard of [sendMessage]. *)
Lemma trim_falsy (s : jsstring) :
  truthy (JStr (trim s)) = false <-> blank s.
Proof.
  rewrite <- trim_nil. simpl. unfold eqb.
  destruct (trim s); simpl; split; intros; try reflexivity; discriminate.
Qed.

(** ** The guard of [sendMessage] *)

Lemma rejected_true (s : State) :
  rejected s = true <->
  blank (input s) \/ loading s = true \/ truthy (sessionId s) = false.
Proof.
  unfold rejected.
  rewrite !orb_true_iff, !negb_true_iff, trim_falsy. tauto.
Qed.

Lemma rejected_false (s : State) :
  rejected s = false <->
  ~ blank (input s) /\ loading s = false /\ truthy (sessionId s) = true.
Proof.
  rewrite <- not_true_iff_false, rejected_true.
  destruct (loading s), (truthy (sessionId s)); intuition congruence.
Qed.

(** ** Being on the page *)

Arguments displayable : simpl never.
Arguments mounted : simpl never.

Lemma mounted_mk (s : State) (a sp : bool) (n : nat) (l : list Effect) :
  mounted (mkWorld s a sp n l) = a && displayable s.
Proof. reflexivity. Qed.

Lemma mounted_true (w : World) :
  mounted w = true <-> alive w = true /\ displayable (ui w) = true.
Proof. unfold mounted. apply andb_true_iff. Qed.

Lemma displayable_ext (s s' : State) :
  isOpen s' = isOpen s -> messages s' = messages s -> displayable s' = displayable s.
Proof. unfold displayable. intros -> ->. reflexivity. Qed.

Lemma allRenderable_app (ms ms' : list Message) :
  allRenderable (ms ++ ms') = allRenderable ms && allRenderable ms'.
Proof. apply forallb_app. Qed.

Lemma displayable_closed (s : State) : isOpen s = false -> displayable s = true.
Proof. unfold displayable. intros ->. reflexivity. Qed.

Lemma displayable_open (s : State) :
  isOpen s = true -> displayable s = allRenderable (messages s).
Proof. unfold displayable. intros ->. reflexivity. Qed.

Lemma displayable_allRenderable (s : State) :
  allRenderable (messages s) = true -> displayable s = true.
Proof. unfold displayable. intros ->. apply orb_true_r. Qed.

(** One more message, [m], in a state that was displayable. *)
Lemma displayable_snoc (s s' : State) (m : Message) :
  isOpen s' = isOpen s -> messages s' = messages s ++ [m] ->
  displayable s = true ->
  displayable s' = negb (isOpen s) || renderable (text m).
Proof.
  unfold displayable. intros -> -> H. rewrite allRenderable_app. simpl.
  destruct (isOpen s); simpl in *; [|reflexivity].
  rewrite H, andb_true_r. reflexivity.
Qed.

(** The open view of a mounted widget shows messages that can all be shown. *)
Lemma mounted_open (w : World) :
  mounted w = true -> isOpen (ui w) = true -> allRenderable (messages (ui w)) = true.
Proof.
  intros [_ Hd]%mounted_true Ho. rewrite displayable_open in Hd; assumption.
Qed.

Lemma mounted_allRenderable (w : World) :
  alive w = true -> allRenderable (messages (ui w)) = true -> mounted w = true.
Proof.
  intros Ha Hr. apply mounted_true. split; [exact Ha|].
  apply displayable_allRenderable, Hr.
Qed.

(** ** What [commit] gives *)

Lemma commit_committed (o : Outcome) (w : World) (s' : State) :
  mounted w = true -> render (fst o) (ui w) = Ok s' -> displayable s' = true ->
  commit o w = mkWorld s' true (sessionPending w) (smartPending w) (log w ++ snd o).
Proof.
  destruct o as [queue effects]. simpl. intros Hm Hr Hd.
  unfold commit. rewrite Hm, Hr, Hd. reflexivity.
Qed.

Lemma commit_thrown (o : Outcome) (w : World) :
  mounted w = true ->
  (exists e, render (fst o) (ui w) = Throw e) \/
  (exists s', render (fst o) (ui w) = Ok s' /\ displayable s' = false) ->
  commit o w = mkWorld (ui w) false (sessionPending w) (smartPending w) (log w ++ snd o).
Proof.
  destruct o as [queue effects]. simpl. intros Hm Hr.
  unfold commit. rewrite Hm.
  destruct Hr as [[e ->] | [s' [-> ->]]]; reflexivity.
Qed.

Lemma commit_unmounted (o : Outcome) (w : World) :
  mounted w = false ->
  commit o w = mkWorld (ui w) false (sessionPending w) (smartPending w) (log w ++ snd o).
Proof.
  destruct o as [queue effects]. simpl. intros Hm.
  unfold commit. rewrite Hm. reflexivity.
Qed.

Lemma World_eta (w : World) :
  w = mkWorld (ui w) (alive w) (sessionPending w) (smartPending w) (log w).
Proof. destruct w. reflexivity. Qed.

(** ** The world after each event *)

Lemma step_user_unmounted (w : World) (e : Event) :
  mounted w = false -> isSessionSettled e = false -> isSmartSettled e = false ->
  step w e = w.
Proof.
  intros Hm H1 H2. destruct e; simpl in *; try discriminate; rewrite Hm; reflexivity.
Qed.

Lemma step_Submit_rejected (w : World) :
  rejected (ui w) = true -> step w Submit = w.
Proof.
  intros H. unfold step. destruct (mounted w) eqn:Hm; [|reflexivity].
  unfold sendMessage_call. rewrite H.
  apply mounted_true in Hm as [Ha Hd].
  rewrite (commit_committed _ _ (ui w)); simpl;
    [|apply mounted_true; simpl; auto | reflexivity | exact Hd].
  rewrite Nat.add_0_r, app_nil_r, <- Ha. symmetry. apply World_eta.
Qed.

Lemma step_Submit_accepted (w : World) :
  mounted w = true -> rejected (ui w) = false -> step w Submit = submitted w.
Proof.
  intros Hm H. unfold step. rewrite Hm.
  unfold sendMessage_call. rewrite H.
  apply mounted_true in Hm as [Ha Hd].
  erewrite commit_committed; simpl;
    [|apply mounted_true; simpl; auto | reflexivity |].
  - rewrite Nat.add_1_r. reflexivity.
  - rewrite (displayable_snoc (ui w) _ (userMessage (ui w)));
      [apply orb_true_r | reflexivity | reflexivity | exact Hd].
Qed.

Lemma step_ClickToggle (w : World) :
  mounted w = true ->
  step w ClickToggle =
  if displayable (toggled (ui w))
  then mkWorld (toggled (ui w)) true (sessionPending w) (smartPending w) (log w)
  else unmountedWith (smartPending w) w.
Proof.
  intros Hm. unfold step. rewrite Hm.
  assert (Hr : render (fst (clickToggle (ui w))) (ui w) = Ok (toggled (ui w))).
  { unfold clickToggle, toggled. destruct (isOpen (ui w)); reflexivity. }
  assert (He : snd (clickToggle (ui w)) = []).
  { unfold clickToggle. destruct (negb _); reflexivity. }
  destruct (displayable (toggled (ui w))) eqn:Hd.
  - rewrite (commit_committed _ _ _ Hm Hr Hd), He, app_nil_r. reflexivity.
  - rewrite (commit_thrown _ _ Hm), He, app_nil_r; [reflexivity|].
    right. eauto.
Qed.

(** Closing the panel always renders; opening it renders if every message
    can be shown. *)
Lemma displayable_toggled (s : State) :
  displayable (toggled s) = isOpen s || allRenderable (messages s).
Proof.
  unfold displayable, toggled. simpl.
  destruct (isOpen s); reflexivity.
Qed.

Lemma step_ChangeInput (w : World) (v : jsstring) :
  mounted w = true ->
  step w (ChangeInput v) =
  mkWorld (mkState (sessionId (ui w)) (messages (ui w)) v
             (loading (ui w)) (isOpen (ui w)))
          true (sessionPending w) (smartPending w) (log w).
Proof.
  intros Hm. unfold step. rewrite Hm.
  erewrite commit_committed; [|exact Hm|reflexivity|].
  - simpl. rewrite app_nil_r. reflexivity.
  - apply mounted_true in Hm as [_ Hd]. rewrite <- Hd.
    apply displayable_ext; reflexivity.
Qed.

Lemma mounted_submitted (w : World) : mounted w = true -> mounted (submitted w) = true.
Proof.
  intros [_ Hd]%mounted_true. apply mounted_true. split; [reflexivity|].
  rewrite (displayable_snoc (ui w) _ (userMessage (ui w)));
    [apply orb_true_r | reflexivity | reflexivity | exact Hd].
Qed.

Lemma mounted_answered (w : World) (m : Message) :
  mounted w = true -> isOpen (ui w) = false \/ renderable (text m) = true ->
  mounted (answered m w) = true.
Proof.
  intros [_ Hd]%mounted_true Hm. apply mounted_true. split; [reflexivity|].
  rewrite (displayable_snoc (ui w) _ m); [|reflexivity|reflexivity|exact Hd].
  destruct Hm as [-> | ->]; [reflexivity | apply orb_true_r].
Qed.

(** C3. Whatever the state of the widget, invoking [sendMessage] with a draft
    that is empty or all whitespace, or while [loading] is true, or while the
    session id is absent (falsy), does nothing: the handler makes no setter call
    and has no effect, so the whole world (transcript, draft, loading flag,
    session id, the requests issued, the console) stays as it was. *)
Theorem sendMessage_precondition_violated_is_noop (w : World) :
  blank (input (ui w)) \/ loading (ui w) = true \/ truthy (sessionId (ui w)) = false ->
  sendMessage_call (ui w) = ([], []) /\ step w Submit = w.
Proof.
  intros H. apply rejected_true in H. split.
  - unfold sendMessage_call. rewrite H. reflexivity.
  - apply step_Submit_rejected. exact H.
Qed.

(** C4. When the preconditions hold (the draft is not blank, [loading] is
    false, the session id is present), the call itself, before any response,
    appends the user message to the transcript, empties the draft, sets the
    loading flag and issues exactly one request: a POST to [BASE_URL/smart]
    whose body is made of the fields [message] and [session_id], the latter
    being the current session id.  Nothing else changes. *)
Theorem sendMessage_optimistic_send (w : World) :
  mounted w = true ->
  ~ blank (input (ui w)) -> loading (ui w) = false -> truthy (sessionId (ui w)) = true ->
  let w' := step w Submit in
  exists msg req,
    sender msg = user /\
    messages (ui w') = messages (ui w) ++ [msg] /\
    input (ui w') = [] /\
    loading (ui w') = true /\
    sessionId (ui w') = sessionId (ui w) /\
    isOpen (ui w') = isOpen (ui w) /\
    mounted w' = true /\
    log w' = log w ++ [Fetch req] /\
    smartPending w' = S (smartPending w) /\
    url req = BASE_URL ++ lit "/smart" /\
    method req = lit "POST" /\
    headers req = [(lit "Content-Type", lit "application/json")] /\
    body req = Some (JSON_stringify [(lit "message", text msg);
                                     (lit "session_id", sessionId (ui w))]).
Proof.
  intros Hm Hb Hl Hs w'. subst w'.
  rewrite step_Submit_accepted by (try apply rejected_false; auto).
  exists (userMessage (ui w)),
         (smartRequest (text (userMessage (ui w))) (sessionId (ui w))).
  repeat split. apply mounted_submitted, Hm.
Qed.

(** C8. For every draft that [sendMessage] accepts, the user message put in
    the transcript and the [message] field of the request both hold
    [input.trim()]: the draft without its longest prefix and suffix of
    whitespace and line terminators.  Where the raw draft starts or ends with
    such a code unit, what is sent differs from it. *)
Theorem sendMessage_uses_trimmed_draft (w : World) :
  mounted w = true -> rejected (ui w) = false ->
  let draft := input (ui w) in
  let w' := step w Submit in
  (exists pre post, draft = pre ++ trim draft ++ post /\ blank pre /\ blank post) /\
  (forall c, head (trim draft) = Some c \/ last (trim draft) = Some c ->
             isTrimmable c = false) /\
  (forall c, head draft = Some c \/ last draft = Some c ->
             isTrimmable c = true -> trim draft <> draft) /\
  messages (ui w') = messages (ui w) ++ [{| sender := user; text := JStr (trim draft) |}] /\
  exists req,
    log w' = log w ++ [Fetch req] /\
    body req = Some (JSON_stringify [(lit "message", Json (JStr (trim draft)));
                                     (lit "session_id", sessionId (ui w))]).
Proof.
  intros Hm Hr draft w'. subst w'.
  rewrite step_Submit_accepted by assumption.
  split; [apply trim_split|].
  split; [apply trim_ends|].
  split.
  - intros c Hc Ht Heq. fold draft in Heq. rewrite <- Heq in Hc.
    apply trim_ends in Hc. congruence.
  - split; [reflexivity|].
    exists (smartRequest (text (userMessage (ui w))) (sessionId (ui w))).
    split; reflexivity.
Qed.

(** ** Settlements *)

Lemma requestFailed_fetched_json (r : result Response) :
  requestFailed r <-> exists e, fetched_json r = Throw e.
Proof.
  destruct r as [[st [data|]]|e]; simpl; unfold res_json; simpl.
  - split; [discriminate | intros [e [=]]].
  - split; [eauto | reflexivity].
  - split; [eauto | intros _; exact I].
Qed.

Lemma getProp_not_null (data : json) (key : jsstring) :
  data <> JNull -> exists v, getProp data key = Ok v.
Proof. destruct data; simpl; eauto. congruence. Qed.

Lemma startSession_resume_cases (r : result Response) :
  (exists v, startSession_resume r = ([SetSessionId v], [])) \/
  (exists err, startSession_resume r =
               ([], [ConsoleError (lit "Failed to start session") err])).
Proof.
  unfold startSession_resume.
  destruct (let! data := fetched_json r in getProp data (lit "session_id")); eauto.
Qed.

(** The continuation of [sendMessage] on a mounted widget that waits for it. *)
Lemma step_SmartSettled_mounted (w : World) (r : result Response) :
  mounted w = true -> smartPending w <> O ->
  step w (SmartSettled r) =
  commit (sendMessage_resume r)
    (mkWorld (ui w) true (sessionPending w) (pred (smartPending w)) (log w)).
Proof.
  intros [Ha _]%mounted_true Hn. unfold step.
  destruct (smartPending w); [congruence|]. rewrite Ha. reflexivity.
Qed.

Lemma mounted_same_ui (w : World) (sp : bool) (n : nat) (l : list Effect) :
  mounted w = true -> mounted (mkWorld (ui w) true sp n l) = true.
Proof. intros [_ Hd]%mounted_true. apply mounted_true. split; [reflexivity | exact Hd]. Qed.

Lemma render_answer (s : State) (m : Message) :
  render [SetMessages (fun prev => Ok (prev ++ [m])); SetLoading false] s =
  Ok (mkState (sessionId s) (messages s ++ [m]) (input s) false (isOpen s)).
Proof. reflexivity. Qed.

Lemma step_SmartSettled_reply (w : World) r data v :
  mounted w = true -> smartPending w <> O ->
  fetched_json r = Ok data -> getProp data (lit "reply") = Ok v ->
  isOpen (ui w) = false \/ renderable v = true ->
  step w (SmartSettled r) = answered {| sender := bot; text := v |} w.
Proof.
  intros Hm Hn Hd Hv Hshow. rewrite step_SmartSettled_mounted by assumption.
  erewrite commit_committed; [| apply mounted_same_ui, Hm | |].
  - simpl. rewrite app_nil_r. reflexivity.
  - unfold sendMessage_resume. rewrite Hd. simpl. rewrite Hv. reflexivity.
  - apply mounted_true in Hm as [_ Hdis].
    rewrite (displayable_snoc (ui w) _ {| sender := bot; text := v |});
      [|reflexivity|reflexivity|exact Hdis].
    simpl. destruct Hshow as [-> | ->]; [reflexivity | apply orb_true_r].
Qed.

(** A reply that the open view cannot show: the render throws. *)
Lemma step_SmartSettled_unrenderable (w : World) r data v :
  mounted w = true -> smartPending w <> O ->
  fetched_json r = Ok data -> getProp data (lit "reply") = Ok v ->
  isOpen (ui w) = true -> renderable v = false ->
  step w (SmartSettled r) = unmountedWith (pred (smartPending w)) w.
Proof.
  intros Hm Hn Hd Hv Ho Hr. rewrite step_SmartSettled_mounted by assumption.
  rewrite commit_thrown; [simpl; rewrite app_nil_r; reflexivity | apply mounted_same_ui, Hm |].
  right. eexists. split.
  - unfold sendMessage_resume. rewrite Hd. simpl. rewrite Hv. reflexivity.
  - apply mounted_true in Hm as [_ Hdis].
    rewrite (displayable_snoc (ui w) _ {| sender := bot; text := v |});
      [|reflexivity|reflexivity|exact Hdis].
    simpl. rewrite Ho, Hr. reflexivity.
Qed.

Lemma step_SmartSettled_failed (w : World) r :
  mounted w = true -> smartPending w <> O -> requestFailed r ->
  step w (SmartSettled r) = answered fallback w.
Proof.
  intros Hm Hn [e He]%requestFailed_fetched_json.
  rewrite step_SmartSettled_mounted by assumption.
  erewrite commit_committed; [| apply mounted_same_ui, Hm | |].
  - simpl. rewrite app_nil_r. reflexivity.
  - unfold sendMessage_resume. rewrite He. reflexivity.
  - apply mounted_true in Hm as [_ Hdis].
    rewrite (displayable_snoc (ui w) _ fallback);
      [apply orb_true_r|reflexivity|reflexivity|exact Hdis].
Qed.

(** A body that parses to [null]: the updater throws while React renders, the
    render is not committed and the tree is unmounted. *)
Lemma step_SmartSettled_null (w : World) st :
  mounted w = true -> smartPending w <> O ->
  step w (SmartSettled (Ok {| status := st; parsed := Some JNull |})) =
  {| ui := ui w; alive := false; sessionPending := sessionPending w;
     smartPending := pred (smartPending w); log := log w |}.
Proof.
  intros Hm Hn. rewrite step_SmartSettled_mounted by assumption.
  rewrite commit_thrown; [simpl; rewrite app_nil_r; reflexivity | apply mounted_same_ui, Hm |].
  left. eexists. reflexivity.
Qed.

(** Every way a settlement of /smart can end on a mounted widget. *)
Lemma step_SmartSettled_cases (w : World) (r : result Response) :
  mounted w = true -> smartPending w <> O ->
  (exists m, sender m = bot /\
             (isOpen (ui w) = false \/ renderable (text m) = true) /\
             step w (SmartSettled r) = answered m w) \/
  step w (SmartSettled r) = unmountedWith (pred (smartPending w)) w.
Proof.
  intros Hm Hn.
  destruct r as [[st [data|]]|e].
  - destruct (getProp (Json data) (lit "reply")) as [v|e] eqn:Hv.
    + destruct (isOpen (ui w)) eqn:Ho; [destruct (renderable v) eqn:Hr|].
      * left. exists {| sender := bot; text := v |}. repeat split; auto.
        apply (step_SmartSettled_reply w _ (Json data) v); auto.
      * right. apply (step_SmartSettled_unrenderable w _ (Json data) v); auto.
      * left. exists {| sender := bot; text := v |}. repeat split; auto.
        apply (step_SmartSettled_reply w _ (Json data) v); auto.
    + right. destruct data; simpl in Hv; try discriminate.
      apply step_SmartSettled_null; assumption.
  - left. exists fallback. repeat split; auto.
    apply step_SmartSettled_failed; simpl; auto.
  - left. exists fallback. repeat split; auto.
    apply step_SmartSettled_failed; simpl; auto.
Qed.

Lemma step_SessionSettled_cases (w : World) (r : result Response) :
  sessionPending w = true -> mounted w = true ->
  (exists v,
      step w (SessionSettled r) =
      mkWorld (mkState v (messages (ui w)) (input (ui w)) (loading (ui w)) (isOpen (ui w)))
              true false (smartPending w) (log w)) \/
  (exists err,
      step w (SessionSettled r) =
      mkWorld (ui w) true false (smartPending w)
              (log w ++ [ConsoleError (lit "Failed to start session") err])).
Proof.
  intros Hp Hm. unfold step. rewrite Hp.
  assert (Hm' : mounted (mkWorld (ui w) (alive w) false (smartPending w) (log w)) = true)
    by exact Hm.
  pose proof Hm as [_ Hd]%mounted_true.
  destruct (startSession_resume_cases r) as [[v ->]|[err ->]]; [left; exists v|right; exists err].
  - erewrite commit_committed; [| exact Hm' | reflexivity |].
    + simpl. rewrite app_nil_r. reflexivity.
    + rewrite <- Hd. apply displayable_ext; reflexivity.
  - erewrite commit_committed; [| exact Hm' | reflexivity | exact Hd].
    reflexivity.
Qed.

(** Once unmounted, always unmounted, and the last committed state stays. *)
Lemma unmounted_step (w : World) (e : Event) :
  mounted w = false -> mounted (step w e) = false /\ ui (step w e) = ui w.
Proof.
  intros Hm.
  assert (Hc : forall o sp n,
             let w' := commit o (mkWorld (ui w) (alive w) sp n (log w)) in
             mounted w' = false /\ ui w' = ui w).
  { intros o sp n. simpl. rewrite commit_unmounted by exact Hm. split; reflexivity. }
  destruct e as [| v | | r | r]; unfold step; rewrite ?Hm; auto.
  - destruct (sessionPending w); auto; apply Hc.
  - destruct (smartPending w); auto; apply Hc.
Qed.

Lemma unmounted_run (w : World) (events : list Event) :
  mounted w = false -> mounted (run w events) = false /\ ui (run w events) = ui w.
Proof.
  revert w. induction events as [|e events IH]; intros w Hm; [auto|].
  change (run w (e :: events)) with (run (step w e) events).
  destruct (unmounted_step w e Hm) as [Hm' <-]. apply IH, Hm'.
Qed.

Lemma run_cons (w : World) (e : Event) (events : list Event) :
  run w (e :: events) = run (step w e) events.
Proof. reflexivity. Qed.

Lemma run_app (w : World) (events events' : list Event) :
  run w (events ++ events') = run (run w events) events'.
Proof. apply fold_left_app. Qed.

Lemma mounted_mk_true (s : State) (sp : bool) (n : nat) (l : list Effect) :
  displayable s = true -> mounted (mkWorld s true sp n l) = true.
Proof. intros Hd. apply mounted_true. split; [reflexivity | exact Hd]. Qed.

(** What a click on the toggle gives when every message can be shown. *)
Lemma step_ClickToggle_renderable (w : World) :
  mounted w = true -> allRenderable (messages (ui w)) = true ->
  step w ClickToggle =
  mkWorld (toggled (ui w)) true (sessionPending w) (smartPending w) (log w) /\
  mounted (step w ClickToggle) = true.
Proof.
  intros Hm Hr.
  assert (Hd : displayable (toggled (ui w)) = true)
    by (rewrite displayable_toggled, Hr; apply orb_true_r).
  rewrite step_ClickToggle by exact Hm. rewrite Hd.
  split; [reflexivity | apply mounted_mk_true, Hd].
Qed.

(** ** While a reply is awaited *)

Lemma awaiting_step (w0 w : World) (e : Event) :
  allRenderable (messages (ui w0)) = true ->
  awaiting w0 w -> isSmartSettled e = false -> awaiting w0 (step w e).
Proof.
  intros Hr0 [Hm Hl Hmsg Hp Hreq] He.
  assert (Hr : allRenderable (messages (ui w)) = true) by (rewrite Hmsg; exact Hr0).
  pose proof Hm as [_ Hd]%mounted_true.
  destruct e as [| v | | r | r]; try discriminate.
  - destruct (step_ClickToggle_renderable w Hm Hr) as [Heq Hm'].
    rewrite Heq in *. constructor; simpl; assumption.
  - rewrite step_ChangeInput by exact Hm.
    constructor; simpl; assumption.
  - rewrite step_Submit_rejected; [constructor; assumption|].
    apply rejected_true. auto.
  - destruct (sessionPending w) eqn:Hsp.
    + destruct (step_SessionSettled_cases w r Hsp Hm) as [[v ->]|[err ->]];
        constructor; simpl; try assumption;
        try (rewrite List.filter_app; simpl; rewrite app_nil_r; assumption);
        try (apply mounted_mk_true;
             first [exact Hd | rewrite <- Hd; apply displayable_ext; reflexivity]).
    + unfold step. rewrite Hsp. constructor; assumption.
Qed.

Lemma awaiting_run (w0 w : World) (events : list Event) :
  allRenderable (messages (ui w0)) = true ->
  awaiting w0 w -> forallb (fun e => negb (isSmartSettled e)) events = true ->
  awaiting w0 (run w events).
Proof.
  intros Hr0. revert w. induction events as [|e events IH]; intros w Hw Hev; simpl in *.
  - exact Hw.
  - apply andb_true_iff in Hev as [He Hev]. apply negb_true_iff in He.
    apply IH; [apply awaiting_step|]; assumption.
Qed.

Lemma allRenderable_submitted (w : World) :
  allRenderable (messages (ui w)) = true ->
  allRenderable (messages (ui (submitted w))) = true.
Proof. intros Hr. simpl. rewrite allRenderable_app, Hr. reflexivity. Qed.

Lemma awaiting_submitted (w : World) :
  mounted w = true -> awaiting (submitted w) (submitted w).
Proof. intros Hm. constructor; try reflexivity. apply mounted_submitted, Hm. Qed.

(** A whole exchange: an accepted [Submit], any events other than the
    settlement of a /smart request, then the settlement. *)
Lemma exchange (w : World) (between : list Event) (r : result Response) :
  mounted w = true -> allRenderable (messages (ui w)) = true ->
  rejected (ui w) = false ->
  forallb (fun e => negb (isSmartSettled e)) between = true ->
  run w (Submit :: between ++ [SmartSettled r])
  = step (run w (Submit :: between)) (SmartSettled r) /\
  awaiting (submitted w) (run w (Submit :: between)).
Proof.
  intros Hm Hall Hr Hb. split.
  - rewrite app_comm_cons, run_app. reflexivity.
  - rewrite run_cons, step_Submit_accepted by assumption.
    apply awaiting_run;
      [apply allRenderable_submitted, Hall | apply awaiting_submitted, Hm | assumption].
Qed.

(** ** Exchanges *)

Lemma hello_accepted (s : State) :
  input s = lit "hello" -> truthy (sessionId s) = true -> loading s = false ->
  rejected s = false /\ userMessage s = {| sender := user; text := JStr (lit "hello") |}.
Proof.
  intros Hi Hs Hl. split.
  - unfold rejected. rewrite Hi, Hs, Hl. reflexivity.
  - unfold userMessage. rewrite Hi. reflexivity.
Qed.

(** C1. A [sendMessage] call with the draft "hello", made while the session
    id is present and [loading] is false, whose request to /smart succeeds
    with the body [{reply: "hi"}] (whatever the status): once the call has
    completed the transcript is the one before the call followed by the user
    message "hello" and the bot message "hi", in that order, and [loading] is
    false.  Other events may happen while the request is in flight.  The
    messages already in the transcript are ones that can be shown, as they are
    whenever the open view, the one with the send button, is on the page. *)
Theorem sendMessage_hello_then_hi (w : World) (between : list Event) (st : N) :
  mounted w = true ->
  allRenderable (messages (ui w)) = true ->
  input (ui w) = lit "hello" ->
  truthy (sessionId (ui w)) = true ->
  loading (ui w) = false ->
  forallb (fun e => negb (isSmartSettled e)) between = true ->
  let r := Ok {| status := st;
                 parsed := Some (JObj [(lit "reply", JStr (lit "hi"))]) |} in
  let w' := run w (Submit :: between ++ [SmartSettled r]) in
  messages (ui w') =
    messages (ui w) ++ [{| sender := user; text := JStr (lit "hello") |};
                        {| sender := bot; text := JStr (lit "hi") |}] /\
  loading (ui w') = false /\
  mounted w' = true.
Proof.
  intros Hm Hall Hi Hs Hl Hb r w'. subst w'.
  destruct (hello_accepted (ui w) Hi Hs Hl) as [Hr Hu].
  destruct (exchange w between r Hm Hall Hr Hb) as [-> [Hm1 _ Hmsg Hp _]].
  remember (run w (Submit :: between)) as w1 eqn:Hw1.
  rewrite (step_SmartSettled_reply _ r (JObj [(lit "reply", JStr (lit "hi"))])
             (JStr (lit "hi"))); try reflexivity; try assumption.
  - simpl. rewrite Hmsg. simpl. rewrite Hu, <- app_assoc.
    repeat split. apply (mounted_answered w1); [exact Hm1 | right; reflexivity].
  - rewrite Hp. discriminate.
  - right. reflexivity.
Qed.

(** ** The transcript only grows *)

Lemma applyUpdate_prefix (u : Update) (s s' : State) :
  appender u -> applyUpdate u s = Ok s' -> messages s `prefix_of` messages s'.
Proof.
  destruct u as [v | updater | v | b | b]; simpl; intros Hu H;
    try (injection H as <-; reflexivity).
  destruct (updater (messages s)) as [next|e] eqn:Hnext; simpl in H; [|discriminate].
  injection H as <-. simpl. eapply Hu, Hnext.
Qed.

Lemma render_prefix (queue : list Update) (s s' : State) :
  Forall appender queue -> render queue s = Ok s' ->
  messages s `prefix_of` messages s'.
Proof.
  intros Hq. revert s. induction Hq as [|u queue Hu _ IH]; simpl; intros s H.
  - injection H as <-. reflexivity.
  - destruct (applyUpdate u s) as [s1|e] eqn:H1; simpl in H; [|discriminate].
    etransitivity; [eapply applyUpdate_prefix | eapply IH]; eauto.
Qed.

Lemma commit_prefix (o : Outcome) (w : World) :
  Forall appender (fst o) -> messages (ui w) `prefix_of` messages (ui (commit o w)).
Proof.
  destruct o as [queue effects]. simpl. intros Hq. unfold commit.
  destruct (mounted w); [|reflexivity].
  destruct (render queue (ui w)) as [s'|e] eqn:Hr; simpl; [|reflexivity].
  destruct (displayable s'); simpl; [|reflexivity].
  eapply render_prefix; eauto.
Qed.

Lemma append_is_appender (m : Message) :
  appender (SetMessages (fun prev => Ok (prev ++ [m]))).
Proof. intros prev next [= <-]. apply prefix_app_r. reflexivity. Qed.

Lemma clickToggle_appends (s : State) : Forall appender (fst (clickToggle s)).
Proof. unfold clickToggle. destruct (isOpen s); repeat constructor. Qed.

Lemma onChange_appends (v : jsstring) : Forall appender (fst (onChange v)).
Proof. repeat constructor. Qed.

Lemma sendMessage_call_appends (s : State) : Forall appender (fst (sendMessage_call s)).
Proof.
  unfold sendMessage_call. destruct (rejected s); simpl; [constructor|].
  repeat constructor. apply append_is_appender.
Qed.

Lemma sendMessage_resume_appends (r : result Response) :
  Forall appender (fst (sendMessage_resume r)).
Proof.
  unfold sendMessage_resume. simpl.
  destruct (fetched_json r) as [data|e]; simpl; repeat constructor.
  - intros prev next H.
    destruct (getProp data (lit "reply")) as [v|e]; simpl in H; [|discriminate].
    injection H as <-. apply prefix_app_r. reflexivity.
  - apply append_is_appender.
Qed.

Lemma startSession_resume_appends (r : result Response) :
  Forall appender (fst (startSession_resume r)).
Proof.
  destruct (startSession_resume_cases r) as [[v ->]|[err ->]]; repeat constructor.
Qed.

Lemma step_prefix (w : World) (e : Event) :
  messages (ui w) `prefix_of` messages (ui (step w e)).
Proof.
  destruct e as [| v | | r | r]; unfold step.
  - destruct (mounted w); [|reflexivity].
    apply commit_prefix, clickToggle_appends.
  - destruct (mounted w); [|reflexivity].
    apply commit_prefix, onChange_appends.
  - destruct (mounted w); [|reflexivity].
    apply (commit_prefix _ (mkWorld _ _ _ _ _)), sendMessage_call_appends.
  - destruct (sessionPending w); [|reflexivity].
    apply (commit_prefix _ (mkWorld _ _ _ _ _)), startSession_resume_appends.
  - destruct (smartPending w); [reflexivity|].
    apply (commit_prefix _ (mkWorld _ _ _ _ _)), sendMessage_resume_appends.
Qed.

Lemma run_prefix (w : World) (events : list Event) :
  messages (ui w) `prefix_of` messages (ui (run w events)).
Proof.
  revert w. induction events as [|e events IH]; intros w.
  - reflexivity.
  - rewrite run_cons. etransitivity; [apply step_prefix | apply IH].
Qed.

(** C5. Whatever the state of the world and whatever happens next (a click
    on the toggle, typing, a [sendMessage] call accepted or not, the settlement
    of the session request or of a /smart request with any outcome), the
    transcript before is a prefix of the transcript after: messages are only
    appended, never reordered, changed or removed.  The same holds along every
    sequence of events, and every [setMessages] call of every handler passes an
    updater that can only extend its argument. *)
Theorem transcript_append_only :
  (forall (w : World) (e : Event),
      messages (ui w) `prefix_of` messages (ui (step w e))) /\
  (forall (w : World) (events : list Event),
      messages (ui w) `prefix_of` messages (ui (run w events))) /\
  (forall (s : State) (v : jsstring) (r : result Response),
      Forall appender (fst (clickToggle s)) /\
      Forall appender (fst (onChange v)) /\
      Forall appender (fst (sendMessage_call s)) /\
      Forall appender (fst (sendMessage_resume r)) /\
      Forall appender (fst (startSession_resume r)) /\
      Forall appender (fst (mountEffect s))).
Proof.
  split; [exact step_prefix | split; [exact run_prefix|]].
  intros s v r.
  repeat apply conj.
  - apply clickToggle_appends.
  - apply onChange_appends.
  - apply sendMessage_call_appends.
  - apply sendMessage_resume_appends.
  - apply startSession_resume_appends.
  - unfold mountEffect. destruct (negb _); constructor.
Qed.

(** C9. The transcript of the first render, before the session request or any
    send, is exactly one bot message with the greeting text, and the transcript
    after every sequence of events starts with that message. *)
Theorem transcript_starts_with_greeting :
  greeting = {| sender := bot;
                text := JStr (lit "Hello! I'm OmegaAI. How can I help you today?") |} /\
  messages initialState = [greeting] /\
  messages (ui init) = [greeting] /\
  (forall events, exists rest, messages (ui (run init events)) = greeting :: rest).
Proof.
  repeat apply conj; try reflexivity.
  intros events.
  destruct (run_prefix init events) as [rest Hrest].
  exists rest. exact Hrest.
Qed.


(** ** Session acquisition *)

Lemma commit_log (o : Outcome) (w : World) : log (commit o w) = log w ++ snd o.
Proof.
  destruct o as [queue effects]. unfold commit.
  destruct (mounted w); [destruct (render queue (ui w)) as [s'|e];
                          [destruct (displayable s')|]|]; reflexivity.
Qed.

Lemma step_log (w : World) (e : Event) :
  exists effects,
    log (step w e) = log w ++ effects /\ List.filter isSessionStart effects = [].
Proof.
  destruct e as [| v | | r | r]; unfold step.
  - destruct (mounted w); [|exists []; rewrite app_nil_r; auto].
    rewrite commit_log. eexists; split; [reflexivity|].
    unfold clickToggle. destruct (negb _); reflexivity.
  - destruct (mounted w); [|exists []; rewrite app_nil_r; auto].
    rewrite commit_log. eexists; split; reflexivity.
  - destruct (mounted w); [|exists []; rewrite app_nil_r; auto].
    rewrite commit_log. eexists; split; [reflexivity|].
    unfold sendMessage_call. destruct (rejected _); reflexivity.
  - destruct (sessionPending w); [|exists []; rewrite app_nil_r; auto].
    rewrite commit_log. eexists; split; [reflexivity|].
    destruct (startSession_resume_cases r) as [[v ->]|[err ->]]; reflexivity.
  - destruct (smartPending w); [exists []; rewrite app_nil_r; auto|].
    rewrite commit_log. eexists; split; reflexivity.
Qed.

(** No event makes the component ask for a session again. *)
Lemma run_session_requests (w : World) (events : list Event) :
  List.filter isSessionStart (log (run w events)) = List.filter isSessionStart (log w).
Proof.
  revert w. induction events as [|e events IH]; intros w; [reflexivity|].
  rewrite run_cons, IH.
  destruct (step_log w e) as [effects [-> Hnone]].
  rewrite List.filter_app, Hnone, app_nil_r. reflexivity.
Qed.

Lemma idle_init : idle true JNull [Fetch sessionRequest] init.
Proof. constructor; reflexivity. Qed.

(** Without a session id nothing moves but the draft and the visibility. *)
Lemma idle_step (pending : bool) (sid : jsval) (l : list Effect) (w : World) (e : Event) :
  truthy sid = false ->
  idle pending sid l w ->
  (pending = true -> isSessionSettled e = false) ->
  idle pending sid l (step w e).
Proof.
  intros Hsid [Hm Hp Hs Hmsg Hl Hn Hlog] He.
  assert (Hr : allRenderable (messages (ui w)) = true) by (rewrite Hmsg; reflexivity).
  pose proof Hm as [_ Hd]%mounted_true.
  destruct e as [| v | | r | r].
  - destruct (step_ClickToggle_renderable w Hm Hr) as [Heq Hm'].
    rewrite Heq in *. constructor; simpl; assumption.
  - rewrite step_ChangeInput by exact Hm. constructor; simpl; assumption.
  - rewrite step_Submit_rejected; [constructor; assumption|].
    apply rejected_true. rewrite Hs. auto.
  - destruct pending; [specialize (He eq_refl); discriminate|].
    unfold step. rewrite Hp. constructor; assumption.
  - unfold step. rewrite Hn. constructor; assumption.
Qed.

Lemma idle_run (pending : bool) (sid : jsval) (l : list Effect) (w : World) (events : list Event) :
  truthy sid = false ->
  idle pending sid l w ->
  (pending = true -> forallb (fun e => negb (isSessionSettled e)) events = true) ->
  idle pending sid l (run w events).
Proof.
  intros Hsid. revert w. induction events as [|e events IH]; intros w Hw Hev.
  - exact Hw.
  - rewrite run_cons. apply IH.
    + apply idle_step; [assumption | assumption |].
      intros Hp. specialize (Hev Hp). simpl in Hev.
      apply andb_true_iff in Hev as [He _]. apply negb_true_iff in He. exact He.
    + intros Hp. specialize (Hev Hp). simpl in Hev.
      apply andb_true_iff in Hev as [_ Hev]. exact Hev.
Qed.

(** The session request settles on a widget that was waiting for it. *)
Lemma step_SessionSettled_stored (w : World) r data v :
  idle true JNull [Fetch sessionRequest] w ->
  fetched_json r = Ok data -> getProp data (lit "session_id") = Ok v ->
  idle false v [Fetch sessionRequest] (step w (SessionSettled r)) /\
  input (ui (step w (SessionSettled r))) = input (ui w) /\
  isOpen (ui (step w (SessionSettled r))) = isOpen (ui w).
Proof.
  intros [Hm Hp Hs Hmsg Hl Hn Hlog] Hd Hv.
  pose proof Hm as [_ Hdis]%mounted_true.
  assert (Heq : step w (SessionSettled r) =
                mkWorld (mkState v (messages (ui w)) (input (ui w)) (loading (ui w))
                           (isOpen (ui w)))
                        true false (smartPending w) (log w)).
  { assert (Hres : startSession_resume r = ([SetSessionId v], [])).
    { unfold startSession_resume. rewrite Hd. simpl. rewrite Hv. reflexivity. }
    unfold step. rewrite Hp, Hres.
    rewrite (commit_committed _ _
               (mkState v (messages (ui w)) (input (ui w)) (loading (ui w))
                  (isOpen (ui w))));
      [simpl; rewrite app_nil_r; reflexivity | exact Hm | reflexivity |].
    rewrite <- Hdis. apply displayable_ext; reflexivity. }
  rewrite Heq. split; [|split; reflexivity].
  constructor; simpl; try assumption; try reflexivity.
Qed.

Lemma step_SessionSettled_caught (w : World) r :
  idle true JNull [Fetch sessionRequest] w ->
  sessionCaught r ->
  exists err,
    idle false JNull
      [Fetch sessionRequest; ConsoleError (lit "Failed to start session") err]
      (step w (SessionSettled r)) /\
    ui (step w (SessionSettled r)) = ui w.
Proof.
  intros [Hm Hp Hs Hmsg Hl Hn Hlog] Hr.
  pose proof Hm as [_ Hdis]%mounted_true.
  assert (exists err, (let! data := fetched_json r in
                       getProp data (lit "session_id")) = Throw err) as [err He].
  { destruct Hr as [[e He]%requestFailed_fetched_json | He]; rewrite He; simpl; eauto. }
  exists err.
  assert (Heq : step w (SessionSettled r) =
                mkWorld (ui w) true false (smartPending w)
                        (log w ++ [ConsoleError (lit "Failed to start session") err])).
  { assert (Hres : startSession_resume r =
                   ([], [ConsoleError (lit "Failed to start session") err])).
    { unfold startSession_resume. rewrite He. reflexivity. }
    unfold step. rewrite Hp, Hres.
    rewrite (commit_committed _ _ (ui w));
      [reflexivity | exact Hm | reflexivity | exact Hdis]. }
  rewrite Heq. split; [|reflexivity].
  constructor; simpl; try assumption; try reflexivity.
  rewrite Hlog. reflexivity.
Qed.

Lemma idle_typed (pending : bool) (sid : jsval) (l : list Effect) (w : World) (draft : jsstring) :
  idle pending sid l w ->
  idle pending sid l (step w (ChangeInput draft)) /\
  input (ui (step w (ChangeInput draft))) = draft.
Proof.
  intros [Hm Hp Hs Hmsg Hl Hn Hlog].
  pose proof Hm as [_ Hd]%mounted_true.
  rewrite step_ChangeInput by exact Hm.
  split; [|reflexivity].
  constructor; simpl; assumption.
Qed.

(** Whether a widget with the session id [sid] and a draft that is not blank
    sends is decided by the truthiness of [sid]. *)
Lemma idle_Submit (pending : bool) (sid : jsval) (l : list Effect) (w : World) :
  idle pending sid l w -> ~ blank (input (ui w)) ->
  (truthy sid = true ->
   log (step w Submit) = l ++ [Fetch (smartRequest (JStr (trim (input (ui w)))) sid)]) /\
  (truthy sid = false -> step w Submit = w).
Proof.
  intros [Hm Hp Hs Hmsg Hl Hn Hlog] Hb. split; intros Hsid.
  - rewrite step_Submit_accepted; [|assumption|].
    + unfold submitted, userMessage. simpl. rewrite Hs, Hlog. reflexivity.
    + apply rejected_false. rewrite Hs. auto.
  - apply step_Submit_rejected, rejected_true. rewrite Hs. auto.
Qed.

(** C6, as the code has it. Session acquisition runs once, from the mount
    effect: it issues one POST to [BASE_URL/session/start], and no sequence of
    events ever issues another.  Until the request settles the session id is
    [null].  When the request succeeds, the value of the [session_id] property
    of the body is stored and nothing is logged; from then on a draft that is
    not blank is sent if that value is truthy (a non-empty string, for one) and
    is still rejected if it is falsy (the empty string, or a missing property).
    When the request fails, or the body is [null], the state stays as it was,
    one console error is logged, and whatever happens afterwards the session id
    stays [null], nothing more is logged or requested, the transcript stays the
    greeting and every [sendMessage] call is a no-op. *)
Theorem session_acquisition (before : list Event) :
  forallb (fun e => negb (isSessionSettled e)) before = true ->
  let w := run init before in
  log init = [Fetch sessionRequest] /\
  url sessionRequest = BASE_URL ++ lit "/session/start" /\
  method sessionRequest = lit "POST" /\
  (forall events,
      List.filter isSessionStart (log (run init events)) = [Fetch sessionRequest]) /\
  sessionId (ui w) = JNull /\
  (forall r data v,
      fetched_json r = Ok data -> getProp data (lit "session_id") = Ok v ->
      let w' := step w (SessionSettled r) in
      sessionId (ui w') = v /\
      log w' = log w /\
      forall draft, ~ blank draft ->
        let typed := step w' (ChangeInput draft) in
        (truthy v = true ->
         log (step typed Submit) =
           log typed ++ [Fetch (smartRequest (JStr (trim draft)) v)]) /\
        (truthy v = false -> step typed Submit = typed)) /\
  (forall r,
      sessionCaught r ->
      let failed := step w (SessionSettled r) in
      ui failed = ui w /\
      (exists err,
          log failed = log w ++ [ConsoleError (lit "Failed to start session") err]) /\
      forall after,
        let w' := run failed after in
        sessionId (ui w') = JNull /\
        log w' = log failed /\
        messages (ui w') = [greeting] /\
        step w' Submit = w').
Proof.
  intros Hb w.
  assert (Hw : idle true JNull [Fetch sessionRequest] w).
  { apply idle_run; [reflexivity | apply idle_init | intros _; exact Hb]. }
  clearbody w.
  repeat apply conj; try reflexivity.
  - intros events. rewrite run_session_requests. reflexivity.
  - apply Hw.
  - intros r data v Hd Hv w'.
    destruct (step_SessionSettled_stored w r data v Hw Hd Hv) as [Hw' _].
    fold w' in Hw'. clearbody w'.
    repeat apply conj.
    + apply Hw'.
    + rewrite (idle_log _ _ _ _ Hw'), (idle_log _ _ _ _ Hw). reflexivity.
    + intros draft Hd' typed.
      destruct (idle_typed _ _ _ _ draft Hw') as [Ht Hi].
      fold typed in Ht, Hi. clearbody typed.
      rewrite (idle_log _ _ _ _ Ht), <- Hi.
      apply (idle_Submit _ _ _ _ Ht). rewrite Hi. exact Hd'.
  - intros r Hr failed.
    destruct (step_SessionSettled_caught w r Hw Hr) as [err [Hf Hui]].
    fold failed in Hf, Hui. clearbody failed.
    repeat apply conj.
    + exact Hui.
    + exists err. rewrite (idle_log _ _ _ _ Hf), (idle_log _ _ _ _ Hw). reflexivity.
    + intros after w'.
      assert (Hw' : idle false JNull
                 [Fetch sessionRequest;
                  ConsoleError (lit "Failed to start session") err] w').
      { apply idle_run; [reflexivity | exact Hf | discriminate]. }
      clearbody w'.
      repeat apply conj.
      * apply Hw'.
      * rewrite (idle_log _ _ _ _ Hw'), (idle_log _ _ _ _ Hf). reflexivity.
      * apply Hw'.
      * apply step_Submit_rejected, rejected_true.
        rewrite (idle_sessionId _ _ _ _ Hw'). auto.
Qed.

(** The session request succeeds with [{session_id: ""}]: the empty string is
    stored, and a send with the draft "hello" is still rejected. *)
Lemma session_start_empty_id_keeps_sending_disabled :
  let r := Ok {| status := 200;
                 parsed := Some (JObj [(lit "session_id", JStr [])]) |} in
  let w := run init [SessionSettled r; ClickToggle; ChangeInput (lit "hello")] in
  fetched_json r = Ok (Json (JObj [(lit "session_id", JStr [])])) /\
  sessionId (ui w) = JStr [] /\
  input (ui w) = lit "hello" /\
  loading (ui w) = false /\
  mounted w = true /\
  sendMessage_call (ui w) = ([], []) /\
  step w Submit = w.
Proof. repeat split. Qed.


(** ** A /smart body that parses but carries no reply *)

(** Which updater the continuation of [sendMessage] queues: the one of the
    catch branch exactly when the request failed. *)
Lemma sendMessage_resume_branch (r : result Response) :
  (requestFailed r ->
   fst (sendMessage_resume r) =
     [SetMessages (fun prev => Ok (prev ++ [fallback])); SetLoading false]) /\
  (~ requestFailed r ->
   exists data : json,
     fetched_json r = Ok (Json data) /\
     fst (sendMessage_resume r) =
       [SetMessages (fun prev =>
          let! reply := getProp data (lit "reply") in
          Ok (prev ++ [{| sender := bot; text := reply |}]));
        SetLoading false]).
Proof.
  destruct r as [[st [data|]]|e]; simpl; split; intros H;
    try reflexivity; try discriminate; try (exfalso; apply H; constructor).
  exists data. split; reflexivity.
Qed.

(** A body other than [null] without a [reply] property (an error object sent
    with an HTTP error status, for one): the try branch runs to its end and the
    bot message that is appended has the text [undefined]. *)
Lemma smart_reply_missing (w : World) (st : N) (data : json) :
  mounted w = true -> smartPending w <> O ->
  data <> JNull -> getProp data (lit "reply") = Ok Undefined ->
  step w (SmartSettled (Ok {| status := st; parsed := Some data |})) =
  answered {| sender := bot; text := Undefined |} w.
Proof.
  intros Hm Hn _ Hv. apply (step_SmartSettled_reply w _ data Undefined); auto.
Qed.

(** C10, at the body [null]. The widget has sent "hello" and the request to
    /smart settles with status 200 and the body [null]: the body parses, the
    request has not failed and the catch branch is not taken, yet no bot message
    is appended, with the text [undefined] or any other: the updater throws
    while React renders, the render is not committed, the widget is unmounted
    with [loading] still true, and it stays so whatever happens next. *)
Theorem smart_null_body_unmounts_widget :
  let w := step (readyWith (lit "hello")) Submit in
  let r := Ok {| status := 200; parsed := Some JNull |} in
  let w' := step w (SmartSettled r) in
  mounted w = true /\
  smartPending w = 1%nat /\
  messages (ui w) = [greeting; {| sender := user; text := JStr (lit "hello") |}] /\
  fetched_json r = Ok (Json JNull) /\
  ~ requestFailed r /\
  getProp (Json JNull) (lit "reply") = Throw PropertyOfNullish /\
  mounted w' = false /\
  messages (ui w') = messages (ui w) /\
  messages (ui w') <> messages (ui w) ++ [{| sender := bot; text := Undefined |}] /\
  loading (ui w') = true /\
  log w' = log w /\
  (forall events, mounted (run w' events) = false /\ ui (run w' events) = ui w').
Proof.
  repeat apply conj; try reflexivity; try discriminate.
  intros events. apply unmounted_run. reflexivity.
Qed.

(** ** Where the render throws *)

(** C2, where the render throws. A send of "hello" is accepted in the open
    view and its request settles, with status 200, with the body [null] or with
    a reply that is an object.  The request has not failed, the continuation
    ends with [setLoading(false)] as on every path, and the call is over (no
    request is in flight); but the render that follows throws, at the updater
    for [null] and at [{msg.text}] for the object, so [loading] is never
    cleared: the last state that was committed has it true, the widget is
    unmounted, and no later event changes that. *)
Theorem loading_stays_set_when_the_render_throws :
  let w := step (readyWith (lit "hello")) Submit in
  let afterNull := step w (SmartSettled nullBody) in
  let afterObject := step w (SmartSettled objectReply) in
  rejected (ui (readyWith (lit "hello"))) = false /\
  mounted w = true /\
  isOpen (ui w) = true /\
  loading (ui w) = true /\
  smartPending w = 1%nat /\
  ~ requestFailed nullBody /\
  ~ requestFailed objectReply /\
  (forall r, exists queue, fst (sendMessage_resume r) = queue ++ [SetLoading false]) /\
  smartPending afterNull = O /\
  loading (ui afterNull) = true /\
  mounted afterNull = false /\
  smartPending afterObject = O /\
  loading (ui afterObject) = true /\
  mounted afterObject = false /\
  (forall events,
      loading (ui (run afterNull events)) = true /\
      loading (ui (run afterObject events)) = true).
Proof.
  cbv zeta.
  repeat match goal with |- _ /\ _ => split end;
    try reflexivity; try (intros H; discriminate H).
  - intros r. eexists. unfold sendMessage_resume. simpl. reflexivity.
  - intros events. split.
    + destruct (unmounted_run (step (step (readyWith (lit "hello")) Submit)
                                 (SmartSettled nullBody)) events eq_refl) as [_ ->].
      reflexivity.
    + destruct (unmounted_run (step (step (readyWith (lit "hello")) Submit)
                                 (SmartSettled objectReply)) events eq_refl) as [_ ->].
      reflexivity.
Qed.

(** C7, at a transcript that holds an object. A reply that is an object
    arrives while the panel is closed: it is stored, and the closed view shows
    nothing of it.  The next click on the launcher does not just change the
    visibility: the open view throws at [{msg.text}], no state is committed,
    the widget is unmounted, no second click is served and the world before the
    first click is not reached again. *)
Theorem toggle_unmounts_widget_holding_object_reply :
  let w := run (readyWith (lit "hello")) [Submit; ClickToggle; SmartSettled objectReply] in
  let w' := step w ClickToggle in
  mounted w = true /\
  isOpen (ui w) = false /\
  loading (ui w) = false /\
  messages (ui w) =
    [greeting;
     {| sender := user; text := JStr (lit "hello") |};
     {| sender := bot; text := JObj [(lit "text", JStr (lit "hi"))] |}] /\
  renderable (JObj [(lit "text", JStr (lit "hi"))]) = false /\
  mounted w' = false /\
  ui w' = ui w /\
  step w' ClickToggle = w' /\
  step (step w ClickToggle) ClickToggle <> w /\
  (forall events, mounted (run w' events) = false).
Proof.
  cbv zeta.
  repeat match goal with |- _ /\ _ => split end; try reflexivity.
  - intros H. apply (f_equal alive) in H. vm_compute in H. discriminate H.
  - intros events. apply unmounted_run. reflexivity.
Qed.

(** ** The theorems at concrete inputs *)

(** A send of "hello" from a ready widget; while the request is in flight the
    panel is closed and reopened, a new draft is typed and submitted (and
    rejected); the reply is [{reply: "hi"}]. *)
Lemma sendMessage_hello_then_hi_witness :
  let between := [ClickToggle; ChangeInput (lit "again"); Submit; ClickToggle] in
  let r := Ok {| status := 200;
                 parsed := Some (JObj [(lit "reply", JStr (lit "hi"))]) |} in
  let w' := run (readyWith (lit "hello")) (Submit :: between ++ [SmartSettled r]) in
  messages (ui w') =
    messages (ui (readyWith (lit "hello")))
    ++ [{| sender := user; text := JStr (lit "hello") |};
        {| sender := bot; text := JStr (lit "hi") |}] /\
  loading (ui w') = false /\
  mounted w' = true.
Proof.
  apply (sendMessage_hello_then_hi (readyWith (lit "hello"))
           [ClickToggle; ChangeInput (lit "again"); Submit; ClickToggle] 200);
    reflexivity.
Defined.

(** A draft of three spaces on a ready widget. *)
Lemma sendMessage_precondition_violated_is_noop_witness :
  let w := readyWith (lit "   ") in
  blank (input (ui w)) /\ step w Submit = w.
Proof.
  assert (Hb : blank (input (ui (readyWith (lit "   "))))) by (repeat constructor).
  split; [exact Hb|].
  apply (sendMessage_precondition_violated_is_noop (readyWith (lit "   "))).
  left. exact Hb.
Defined.

Lemma hello_not_blank : ~ blank (lit "hello").
Proof. intros H. apply trim_nil in H. discriminate H. Qed.

Lemma sendMessage_optimistic_send_witness :
  let w := readyWith (lit "hello") in
  exists msg req,
    sender msg = user /\
    messages (ui (step w Submit)) = messages (ui w) ++ [msg] /\
    input (ui (step w Submit)) = [] /\
    loading (ui (step w Submit)) = true /\
    log (step w Submit) = log w ++ [Fetch req] /\
    url req = BASE_URL ++ lit "/smart" /\
    method req = lit "POST" /\
    body req = Some (JSON_stringify [(lit "message", text msg);
                                     (lit "session_id", Json (JStr (lit "abc")))]).
Proof.
  destruct (sendMessage_optimistic_send (readyWith (lit "hello"))
              eq_refl hello_not_blank eq_refl eq_refl)
    as (msg & req & H1 & H2 & H3 & H4 & _ & _ & _ & H8 & _ & H10 & H11 & _ & H12).
  exists msg, req. repeat apply conj; assumption.
Defined.

Lemma sendMessage_uses_trimmed_draft_witness :
  let w := readyWith (lit "  hello world ") in
  trim (input (ui w)) = lit "hello world" /\
  messages (ui (step w Submit)) =
    messages (ui w) ++ [{| sender := user; text := JStr (lit "hello world") |}] /\
  exists req,
    log (step w Submit) = log w ++ [Fetch req] /\
    body req = Some (JSON_stringify [(lit "message", Json (JStr (lit "hello world")));
                                     (lit "session_id", Json (JStr (lit "abc")))]).
Proof.
  destruct (sendMessage_uses_trimmed_draft (readyWith (lit "  hello world "))
              eq_refl eq_refl)
    as (_ & _ & _ & Hmsg & Hreq).
  split; [reflexivity|]. split; [exact Hmsg | exact Hreq].
Defined.

(** The panel is opened and a draft typed before the session request settles;
    the request then succeeds with "abc", or is rejected by the network. *)
Lemma session_acquisition_witness :
  let w := run init [ClickToggle; ChangeInput (lit "hello")] in
  sessionId (ui w) = JNull /\
  sessionId (ui (step w (SessionSettled sessionGranted))) = JStr (lit "abc") /\
  log (step (step w (SessionSettled sessionGranted)) Submit) =
    [Fetch sessionRequest;
     Fetch (smartRequest (JStr (lit "hello")) (JStr (lit "abc")))] /\
  (let w' := run (step w (SessionSettled (Throw FetchRejected)))
                 [Submit; ClickToggle; SessionSettled sessionGranted; Submit] in
   sessionId (ui w') = JNull /\
   log w' = [Fetch sessionRequest;
             ConsoleError (lit "Failed to start session") FetchRejected] /\
   step w' Submit = w').
Proof.
  destruct (session_acquisition [ClickToggle; ChangeInput (lit "hello")] eq_refl)
    as (_ & _ & _ & _ & Hnull & Hok & Hfail).
  split; [exact Hnull|].
  destruct (Hok sessionGranted _ _ eq_refl eq_refl) as (Hsid & _ & _).
  split; [exact Hsid|].
  split; [reflexivity|].
  destruct (Hfail (Throw FetchRejected) (or_introl I)) as (_ & _ & Hafter).
  destruct (Hafter [Submit; ClickToggle; SessionSettled sessionGranted; Submit])
    as (H1 & _ & _ & H4).
  split; [exact H1|]. split; [reflexivity | exact H4].
Defined.


(** * Further properties of the component *)

(** ** More on [trim] *)

Lemma dropWhile_id (p : N -> bool) (s : jsstring) :
  (forall c, head s = Some c -> p c = false) -> dropWhile p s = s.
Proof.
  destruct s as [|c s]; simpl; [reflexivity|].
  intros H. rewrite (H c eq_refl). reflexivity.
Qed.

Lemma trim_fixed (s : jsstring) :
  (forall c, head s = Some c \/ last s = Some c -> isTrimmable c = false) ->
  trim s = s.
Proof.
  intros H. unfold trim, trimStart, trimEnd.
  rewrite (dropWhile_id _ s) by (intros c Hc; apply H; left; exact Hc).
  rewrite dropWhile_id.
  - apply reverse_involutive.
  - intros c Hc. rewrite head_reverse in Hc. apply H. right. exact Hc.
Qed.

Lemma trim_idempotent (s : jsstring) : trim (trim s) = trim s.
Proof. apply trim_fixed. intros c. apply trim_ends. Qed.

(** ** Every world the widget can be in is coherent *)

Lemma dialogue_snoc (exchanges : list (Message * Message)) (q a : Message) :
  dialogue (exchanges ++ [(q, a)]) = dialogue exchanges ++ [q; a].
Proof. unfold dialogue. rewrite flat_map_app. simpl. reflexivity. Qed.

Lemma coherent_init : coherent init.
Proof.
  constructor; simpl; auto.
  - discriminate.
  - exists [], []. repeat split; constructor.
  - repeat constructor. intros H. discriminate H.
  - exists []. split; [reflexivity | left; reflexivity].
Qed.

(** [coherent] does not look at the draft or at the visibility. *)
Lemma coherent_ext (w w' : World) :
  sessionId (ui w') = sessionId (ui w) ->
  messages (ui w') = messages (ui w) ->
  loading (ui w') = loading (ui w) ->
  mounted w' = mounted w ->
  sessionPending w' = sessionPending w ->
  smartPending w' = smartPending w ->
  log w' = log w ->
  coherent w -> coherent w'.
Proof.
  intros Hs Hmsg Hl Hm Hsp Hn Hlog [H1 H1' H2 H3 H4 H5 H6].
  constructor; rewrite ?Hs, ?Hmsg, ?Hl, ?Hm, ?Hsp, ?Hn, ?Hlog; assumption.
Qed.

(** Something has been sent only with a session id. *)
Lemma coherent_sent_something (w : World) :
  coherent w -> messages (ui w) <> [greeting] \/ loading (ui w) = true ->
  truthy (sessionId (ui w)) = true /\ sessionPending w = false.
Proof.
  intros Hw Hsent.
  assert (Ht : truthy (sessionId (ui w)) = true).
  { destruct (truthy (sessionId (ui w))) eqn:Ht; [reflexivity|].
    destruct (coherent_absent w Hw Ht) as [Hmsg Hl].
    destruct Hsent; congruence. }
  split; [exact Ht|].
  destruct (sessionPending w) eqn:Hs; [|reflexivity].
  destruct (coherent_session w Hw Hs) as [Hsid _].
  rewrite Hsid in Ht. discriminate.
Qed.

Lemma coherent_loading (w : World) :
  coherent w -> smartPending w <> O ->
  loading (ui w) = true /\ smartPending w = 1%nat /\
  truthy (sessionId (ui w)) = true /\ sessionPending w = false.
Proof.
  intros Hw Hn.
  destruct (coherent_pending w Hw) as [Hp | [Hp Hl]]; [congruence|].
  destruct (coherent_sent_something w Hw) as [Ht Hs]; auto.
Qed.

Lemma coherent_idle (w : World) :
  coherent w -> loading (ui w) = false -> smartPending w = O.
Proof.
  intros Hw Hl. destruct (coherent_pending w Hw) as [Hp | [_ Hl']]; congruence.
Qed.

Lemma coherent_submitted (w : World) :
  coherent w -> mounted w = true -> rejected (ui w) = false -> coherent (submitted w).
Proof.
  intros Hw Hm Hr.
  apply rejected_false in Hr as (Hb & Hl & Hs).
  pose proof (coherent_idle w Hw Hl) as Hp.
  destruct Hw as [H1 H1' H2 H3 H4 H5 H6].
  constructor; simpl.
  - right. rewrite Hp. auto.
  - intros _ _. rewrite Hp. reflexivity.
  - destruct H2 as (exchanges & waiting & Hmsg & Hex & Hwait).
    rewrite Hl in Hwait. subst waiting.
    exists exchanges, [userMessage (ui w)].
    split; [|split; [exact Hex|]].
    + rewrite Hmsg, app_nil_r. reflexivity.
    + eexists. split; reflexivity.
  - apply Forall_app. split; [exact H3|].
    constructor; [|constructor].
    intros _. exists (trim (input (ui w))). split; [reflexivity|]. split.
    + intros Ht. apply Hb, trim_nil, Ht.
    + apply trim_idempotent.
  - destruct H4 as (errs & Hlog & Herrs). exists errs. split; [|exact Herrs].
    rewrite Hlog, List.filter_app, map_app. simpl.
    rewrite <- app_assoc. reflexivity.
  - intros Hsp. destruct (H5 Hsp) as (Hsid & _). rewrite Hsid in Hs. discriminate.
  - intros Hf. congruence.
Qed.

Lemma coherent_answered (w : World) (m : Message) :
  coherent w -> smartPending w <> O -> sender m = bot -> coherent (answered m w).
Proof.
  intros Hw Hn Hbot.
  destruct (coherent_loading w Hw Hn) as (Hl & Hp & Ht & Hsp).
  destruct Hw as [H1 H1' H2 H3 H4 H5 H6].
  constructor; simpl.
  - left. rewrite Hp. reflexivity.
  - discriminate.
  - destruct H2 as (exchanges & waiting & Hmsg & Hex & Hwait).
    rewrite Hl in Hwait. destruct Hwait as (q & -> & Hq).
    exists (exchanges ++ [(q, m)]), []. split; [|split; [|reflexivity]].
    + rewrite Hmsg, dialogue_snoc, app_nil_r. simpl. rewrite <- app_assoc. reflexivity.
    + apply Forall_app. split; [exact Hex|]. repeat constructor; assumption.
  - apply Forall_app. split; [exact H3|].
    constructor; [|constructor]. intros Hu. congruence.
  - destruct H4 as (errs & Hlog & Herrs). exists errs. split; [|exact Herrs].
    rewrite Hlog, List.filter_app. simpl.
    replace (isUser m) with false by (unfold isUser; rewrite Hbot; reflexivity).
    rewrite app_nil_r. reflexivity.
  - congruence.
  - congruence.
Qed.

(** After a render that threw, with [n] requests left in flight. *)
Lemma coherent_unmountedWith (w : World) (n : nat) :
  coherent w -> sessionPending w = false ->
  n = O \/ n = smartPending w ->
  coherent (unmountedWith n w).
Proof.
  intros Hw Hsp Hn. destruct Hw as [H1 H1' H2 H3 H4 H5 H6].
  constructor; simpl; try assumption.
  - destruct Hn as [-> | ->]; [left; reflexivity | exact H1].
  - unfold unmountedWith, mounted. simpl. discriminate.
  - congruence.
Qed.

Lemma step_SmartSettled_unmounted (w : World) (r : result Response) (n : nat) :
  mounted w = false -> smartPending w = S n ->
  step w (SmartSettled r) = unmountedWith n w.
Proof.
  intros Hm Hn. unfold step. rewrite Hn.
  rewrite commit_unmounted by exact Hm. simpl. rewrite app_nil_r. reflexivity.
Qed.

Lemma allRenderable_greeting : allRenderable [greeting] = true.
Proof. reflexivity. Qed.

Lemma coherent_step (w : World) (e : Event) : coherent w -> coherent (step w e).
Proof.
  intros Hw. destruct e as [| v | | r | r].
  - destruct (mounted w) eqn:Hm; [|rewrite step_user_unmounted; auto].
    rewrite step_ClickToggle by assumption.
    destruct (displayable (toggled (ui w))) eqn:Hd.
    + eapply coherent_ext; [..|exact Hw]; simpl; auto.
      rewrite Hm. apply mounted_mk_true, Hd.
    + apply coherent_unmountedWith; auto.
      apply (coherent_sent_something w Hw). left. intros Hmsg.
      rewrite displayable_toggled, Hmsg, allRenderable_greeting, orb_true_r in Hd.
      discriminate.
  - destruct (mounted w) eqn:Hm; [|rewrite step_user_unmounted; auto].
    pose proof Hm as [_ Hd]%mounted_true.
    rewrite step_ChangeInput by assumption.
    eapply coherent_ext; [..|exact Hw]; simpl; auto.
    rewrite Hm. apply mounted_mk_true. exact Hd.
  - destruct (mounted w) eqn:Hm; [|rewrite step_user_unmounted; auto].
    destruct (rejected (ui w)) eqn:Hr.
    + rewrite step_Submit_rejected; assumption.
    + rewrite step_Submit_accepted by assumption.
      apply coherent_submitted; assumption.
  - destruct (sessionPending w) eqn:Hsp; [|unfold step; rewrite Hsp; exact Hw].
    destruct (coherent_session w Hw Hsp) as (Hsid & Hm & Hlog).
    assert (Hf : truthy (sessionId (ui w)) = false) by (rewrite Hsid; reflexivity).
    destruct (coherent_absent w Hw Hf) as [Hmsg Hl].
    pose proof (coherent_idle w Hw Hl) as Hp.
    destruct (step_SessionSettled_cases w r Hsp Hm) as [[v ->]|[err ->]].
    + constructor; simpl; rewrite ?Hl, ?Hmsg, ?Hlog, ?Hp; auto.
      * discriminate.
      * exists [], []. repeat split; constructor.
      * repeat constructor. intros H. discriminate H.
      * exists []. split; [reflexivity | left; reflexivity].
      * discriminate.
    + constructor; simpl; rewrite ?Hl, ?Hmsg, ?Hlog, ?Hsid, ?Hp; auto.
      * discriminate.
      * exists [], []. repeat split; constructor.
      * repeat constructor. intros H. discriminate H.
      * exists [ConsoleError (lit "Failed to start session") err].
        split; [reflexivity | right; eauto].
      * discriminate.
  - destruct (smartPending w) as [|n] eqn:Hn; [unfold step; rewrite Hn; exact Hw|].
    assert (Hn' : smartPending w <> O) by congruence.
    destruct (coherent_loading w Hw Hn') as (Hl & Hp & Ht & Hsp).
    destruct (mounted w) eqn:Hm.
    + destruct (step_SmartSettled_cases w r Hm Hn') as [(m & Hbot & _ & ->) | ->].
      * apply coherent_answered; assumption.
      * apply coherent_unmountedWith; auto. left. rewrite Hp. reflexivity.
    + rewrite (step_SmartSettled_unmounted w r n Hm Hn).
      apply coherent_unmountedWith; auto. left. congruence.
Qed.

Lemma coherent_run (w : World) (events : list Event) :
  coherent w -> coherent (run w events).
Proof.
  revert w. induction events as [|e events IH]; intros w Hw; [exact Hw|].
  rewrite run_cons. apply IH, coherent_step, Hw.
Qed.

Lemma coherent_reachable (events : list Event) : coherent (run init events).
Proof. apply coherent_run, coherent_init. Qed.

(** ** What holds in every world the widget reaches *)

(** X2. After any sequence of events the transcript is the greeting, then
    question and answer in turn (a user message, then a bot message, be it a
    reply or the fallback), then, exactly while [loading] is true, the one user
    message that waits for its answer. *)
Theorem transcript_is_a_dialogue (events : list Event) :
  let w := run init events in
  exists exchanges waiting,
    messages (ui w) = greeting :: dialogue exchanges ++ waiting /\
    Forall (fun qa => sender (fst qa) = user /\ sender (snd qa) = bot) exchanges /\
    (if loading (ui w) then exists q, waiting = [q] /\ sender q = user
     else waiting = []).
Proof. apply coherent_dialogue, coherent_reachable. Qed.

(** X3. After any sequence of events every user message of the transcript
    carries a string that is not empty and has no whitespace or line terminator
    at either end ([trim] leaves it as it is): a blank message is never shown. *)
Theorem user_messages_are_trimmed (events : list Event) :
  Forall (fun m => sender m = user ->
                   exists t, text m = Json (JStr t) /\ t <> [] /\ trim t = t)
         (messages (ui (run init events))).
Proof. apply (coherent_sent _ (coherent_reachable events)). Qed.

Lemma filter_isFetch_requests (sid : jsval) (ms : list Message) :
  List.filter isFetch (map (requestFor sid) ms) = map (requestFor sid) ms.
Proof. induction ms as [|m ms IH]; simpl; [|rewrite IH]; reflexivity. Qed.

Lemma filter_isConsoleError_requests (sid : jsval) (ms : list Message) :
  List.filter isConsoleError (map (requestFor sid) ms) = [].
Proof. induction ms as [|m ms IH]; simpl; [|rewrite IH]; reflexivity. Qed.

Lemma coherent_requests (w : World) :
  coherent w ->
  List.filter isFetch (log w) =
  Fetch sessionRequest
  :: map (fun m => Fetch (smartRequest (text m) (sessionId (ui w))))
         (List.filter isUser (messages (ui w))).
Proof.
  intros Hw.
  destruct (coherent_log w Hw) as (errs & -> & Herrs).
  simpl. rewrite List.filter_app. fold (requestFor (sessionId (ui w))).
  rewrite filter_isFetch_requests.
  destruct Herrs as [-> | (err & -> & _)]; reflexivity.
Qed.

(** X4. After any sequence of events the requests issued so far are the
    session request followed by one POST to /smart for each user message of the
    transcript, in the order of the transcript, each with the text of its
    message and with the session id that is stored now: every message shown as
    sent has been sent once, and nothing else has. *)
Theorem requests_mirror_transcript (events : list Event) :
  let w := run init events in
  List.filter isFetch (log w) =
  Fetch sessionRequest
  :: map (fun m => Fetch (smartRequest (text m) (sessionId (ui w))))
         (List.filter isUser (messages (ui w))).
Proof. apply coherent_requests, coherent_reachable. Qed.

(** X5. After any sequence of events the component has called
    [console.error] never or once, and then with "Failed to start session";
    in that case the session id is [null], the transcript is the greeting alone
    and the session request is the only request ever issued.  (What React itself
    reports when a render throws is not the component's call and is not in
    [log].) *)
Theorem console_error_means_no_session (events : list Event) :
  let w := run init events in
  List.filter isConsoleError (log w) = [] \/
  exists err,
    List.filter isConsoleError (log w) =
      [ConsoleError (lit "Failed to start session") err] /\
    sessionId (ui w) = JNull /\
    messages (ui w) = [greeting] /\
    List.filter isFetch (log w) = [Fetch sessionRequest].
Proof.
  intros w. pose proof (coherent_reachable events) as Hw. fold w in Hw.
  destruct (coherent_log w Hw) as (errs & Hlog & Herrs).
  destruct Herrs as [-> | (err & -> & Hsid)].
  - left. rewrite Hlog. simpl. apply filter_isConsoleError_requests.
  - right. exists err.
    assert (Hf : truthy (sessionId (ui w)) = false) by (rewrite Hsid; reflexivity).
    destruct (coherent_absent w Hw Hf) as [Hmsg _].
    rewrite Hlog, Hmsg. repeat split; try reflexivity. exact Hsid.
Qed.

(** X6. As long as the stored session id is falsy (the session request is
    pending, it failed, or it returned no usable id) nothing has been sent:
    the transcript is the greeting alone, [loading] is false, no request is in
    flight and the session request is the only request issued. *)
Theorem no_session_nothing_sent (events : list Event) :
  let w := run init events in
  truthy (sessionId (ui w)) = false ->
  messages (ui w) = [greeting] /\
  loading (ui w) = false /\
  smartPending w = O /\
  List.filter isFetch (log w) = [Fetch sessionRequest].
Proof.
  intros w Hf. pose proof (coherent_reachable events) as Hw. fold w in Hw.
  destruct (coherent_absent w Hw Hf) as [Hmsg Hl].
  repeat split; try assumption.
  - destruct (coherent_pending w Hw) as [Hp | [_ Hl']]; [exact Hp | congruence].
  - rewrite (coherent_requests w Hw), Hmsg. reflexivity.
Qed.


(** ** The session id is set by [startSession] alone *)

Lemma step_keeps_sessionId (w : World) (e : Event) :
  isSessionSettled e = false -> sessionId (ui (step w e)) = sessionId (ui w).
Proof.
  intros He. destruct e as [| v | | r | r]; try discriminate.
  - destruct (mounted w) eqn:Hm; [|rewrite step_user_unmounted; auto].
    rewrite step_ClickToggle by assumption.
    destruct (displayable (toggled (ui w))); reflexivity.
  - destruct (mounted w) eqn:Hm; [|rewrite step_user_unmounted; auto].
    rewrite step_ChangeInput by assumption. reflexivity.
  - destruct (mounted w) eqn:Hm; [|rewrite step_user_unmounted; auto].
    destruct (rejected (ui w)) eqn:Hr.
    + rewrite step_Submit_rejected by assumption. reflexivity.
    + rewrite step_Submit_accepted by assumption. reflexivity.
  - destruct (smartPending w) as [|n] eqn:Hn; [unfold step; rewrite Hn; reflexivity|].
    destruct (mounted w) eqn:Hm.
    + assert (Hn' : smartPending w <> O) by congruence.
      destruct (step_SmartSettled_cases w r Hm Hn') as [(m & _ & _ & ->) | ->]; reflexivity.
    + destruct (unmounted_step w (SmartSettled r) Hm) as [_ ->]. reflexivity.
Qed.

(** X7. Only the continuation of [startSession] sets the session id: in any
    world, no sequence of panel clicks, typing, [sendMessage] calls and
    settlements of /smart requests changes the stored session id ([setSessionId]
    is called at line 26 and nowhere else). *)
Theorem only_startSession_sets_the_session_id (w : World) (events : list Event) :
  forallb (fun e => negb (isSessionSettled e)) events = true ->
  sessionId (ui (run w events)) = sessionId (ui w).
Proof.
  revert w. induction events as [|e events IH]; intros w Hev; [reflexivity|].
  simpl in Hev. apply andb_true_iff in Hev as [He Hev]. apply negb_true_iff in He.
  rewrite run_cons, (IH _ Hev). apply step_keeps_sessionId, He.
Qed.

(** ** Sending twice *)

(** X8. In any world a second [sendMessage] call right after a first one does
    nothing more: whether the first call was rejected or accepted, the world
    after both is the world after the first, so a double click or a repeated
    Enter sends the draft once. *)
Theorem double_submit_sends_once (w : World) :
  step (step w Submit) Submit = step w Submit.
Proof.
  destruct (mounted w) eqn:Hm.
  - destruct (rejected (ui w)) eqn:Hr.
    + rewrite (step_Submit_rejected w Hr). apply step_Submit_rejected, Hr.
    + rewrite (step_Submit_accepted w Hm Hr).
      apply step_Submit_rejected, rejected_true. right; left. reflexivity.
  - rewrite (step_user_unmounted w Submit Hm eq_refl eq_refl).
    apply step_user_unmounted; auto.
Qed.

Lemma step_keeps_empty_draft (w : World) (e : Event) :
  isChangeInput e = false -> input (ui w) = [] -> input (ui (step w e)) = [].
Proof.
  intros He Hi. destruct e as [| v | | r | r]; try discriminate.
  - destruct (mounted w) eqn:Hm.
    + rewrite step_ClickToggle by assumption.
      destruct (displayable (toggled (ui w))); exact Hi.
    + rewrite step_user_unmounted; auto.
  - rewrite step_Submit_rejected; [exact Hi|].
    apply rejected_true. left. rewrite Hi. constructor.
  - destruct (sessionPending w) eqn:Hsp; [|simpl; rewrite Hsp; exact Hi].
    destruct (mounted w) eqn:Hm.
    + destruct (step_SessionSettled_cases w r Hsp Hm) as [[v ->]|[err ->]]; exact Hi.
    + destruct (unmounted_step w (SessionSettled r) Hm) as [_ ->]. exact Hi.
  - destruct (smartPending w) as [|n] eqn:Hn; [simpl; rewrite Hn; exact Hi|].
    destruct (mounted w) eqn:Hm.
    + assert (Hn' : smartPending w <> O) by congruence.
      destruct (step_SmartSettled_cases w r Hm Hn') as [(m & _ & _ & ->) | ->]; exact Hi.
    + destruct (unmounted_step w (SmartSettled r) Hm) as [_ ->]. exact Hi.
Qed.

Lemma run_keeps_empty_draft (w : World) (events : list Event) :
  forallb (fun e => negb (isChangeInput e)) events = true ->
  input (ui w) = [] -> input (ui (run w events)) = [].
Proof.
  revert w. induction events as [|e events IH]; intros w Hev Hi; [exact Hi|].
  simpl in Hev. apply andb_true_iff in Hev as [He Hev]. apply negb_true_iff in He.
  rewrite run_cons. apply IH; [exact Hev|]. apply step_keeps_empty_draft; assumption.
Qed.

(** X9. A draft is sent once: after an accepted [sendMessage] call, and as
    long as nothing is typed, every further call is a no-op, also once the
    reply has arrived, because the call emptied the draft. *)
Theorem resubmit_without_typing_is_noop (w : World) (events : list Event) :
  mounted w = true -> rejected (ui w) = false ->
  forallb (fun e => negb (isChangeInput e)) events = true ->
  let w' := run (step w Submit) events in
  input (ui w') = [] /\ step w' Submit = w'.
Proof.
  intros Hm Hr Hev w'.
  assert (Hi : input (ui w') = []).
  { apply run_keeps_empty_draft; [exact Hev|].
    rewrite step_Submit_accepted by assumption. reflexivity. }
  split; [exact Hi|].
  apply step_Submit_rejected, rejected_true. left. rewrite Hi. constructor.
Qed.

(** ** A /smart body that parses *)

(** X10. When a /smart request settles with a body that parses to anything
    but [null], the HTTP status is not looked at and the fallback is not used:
    the text of the bot message is the [reply] property of the body when the
    body is an object, whatever the type of that property ([undefined] when it
    is missing), and [undefined] when the body is not an object.  The message
    is appended and [loading] cleared if the panel is closed or the text can be
    rendered; with the panel open and a text that is an object or an array
    holding one, the render throws: the widget is unmounted, nothing is
    appended and [loading] stays set. *)
Theorem smart_reply_is_the_reply_property (w : World) (st : N) (data : json) :
  mounted w = true -> smartPending w <> O -> data <> JNull ->
  let reply := match data with
               | JObj props => ownProperty props (lit "reply")
               | _ => Undefined
               end in
  step w (SmartSettled (Ok {| status := st; parsed := Some data |})) =
  if negb (isOpen (ui w)) || renderable reply
  then answered {| sender := bot; text := reply |} w
  else unmountedWith (pred (smartPending w)) w.
Proof.
  intros Hm Hn Hd reply.
  assert (Hg : getProp (Json data) (lit "reply") = Ok reply).
  { subst reply. destruct data; simpl; congruence. }
  destruct (isOpen (ui w)) eqn:Ho; cbn [negb orb].
  - destruct (renderable reply) eqn:Hr.
    + apply (step_SmartSettled_reply w _ (Json data)); auto.
    + apply (step_SmartSettled_unrenderable w _ (Json data) reply); auto.
  - apply (step_SmartSettled_reply w _ (Json data)); auto.
Qed.

(** ** The view *)

(** X12. In the open view the send button is disabled exactly when the draft
    is blank or [loading] is true, and the field exactly when [loading] is
    true.  A disabled button never hides a send: whenever it is disabled,
    [sendMessage] would do nothing.  The converse fails only for the session:
    with a draft typed and no session id the button is enabled, the
    placeholder reads "Connecting..." and a click does nothing; with a session
    id an enabled button always sends. *)
Theorem send_button_mirrors_the_guard (s : State) :
  isOpen s = true ->
  exists rows spinner field button,
    view s = OpenView rows spinner field button /\
    spinner = loading s /\
    value field = input s /\
    fieldDisabled field = loading s /\
    (buttonDisabled button = true <-> blank (input s) \/ loading s = true) /\
    rejected s = buttonDisabled button || negb (truthy (sessionId s)) /\
    (buttonDisabled button = true -> sendMessage_call s = ([], [])) /\
    (truthy (sessionId s) = false ->
     placeholder field = lit "Connecting..." /\ sendMessage_call s = ([], [])) /\
    (buttonDisabled button = false -> truthy (sessionId s) = true ->
     placeholder field = lit "Type a message..." /\
     sendMessage_call s =
       ([SetMessages (fun prev => Ok (prev ++ [userMessage s]));
         SetLoading true; SetInput []],
        [Fetch (smartRequest (text (userMessage s)) (sessionId s))])).
Proof.
  intros Ho. unfold view. rewrite Ho. cbn [negb].
  eexists _, _, _, _. split; [reflexivity|].
  cbn [buttonDisabled fieldDisabled value placeholder].
  do 3 (split; [reflexivity|]).
  split; [rewrite orb_true_iff, negb_true_iff, trim_falsy; tauto|].
  split; [reflexivity|].
  split; [|split].
  - intros Hd. unfold sendMessage_call, rejected. rewrite Hd. reflexivity.
  - intros Hs. rewrite Hs. split; [reflexivity|].
    unfold sendMessage_call, rejected. rewrite Hs, orb_true_r. reflexivity.
  - intros Hd Hs. rewrite Hs. split; [reflexivity|].
    unfold sendMessage_call, rejected. rewrite Hd, Hs. reflexivity.
Qed.

(** ** The widget as the user drives it *)

Lemma act_step (w : World) (a : Action) :
  act w a = w \/ exists e, act w a = step w e.
Proof.
  destruct a as [g|e]; simpl.
  - destruct (mounted w && offered (view (ui w)) g); [|left; reflexivity].
    destruct (handlerOf g) as [e|]; [right; exists e|left]; reflexivity.
  - destruct (isSessionSettled e || isSmartSettled e); [right; exists e|left]; reflexivity.
Qed.

(** Whatever the user and the network do is a run of [step]. *)
Lemma play_run (w : World) (actions : list Action) :
  exists events, play w actions = run w events.
Proof.
  revert w. induction actions as [|a actions IH]; intros w.
  - exists []. reflexivity.
  - change (play w (a :: actions)) with (play (act w a) actions).
    destruct (act_step w a) as [-> | [e ->]].
    + apply IH.
    + destruct (IH (step w e)) as [events ->]. exists (e :: events). reflexivity.
Qed.

Lemma offered_typing (s : State) (g : Gesture) (v : jsstring) :
  offered (view s) g = true -> handlerOf g = Some (ChangeInput v) -> loading s = false.
Proof.
  unfold view. destruct (negb (isOpen s)); destruct g; simpl; try discriminate.
  - intros H _. apply negb_true_iff in H. exact H.
  - destruct (eqb key (lit "Enter")); discriminate.
Qed.

Lemma step_locked (w : World) (e : Event) :
  (isChangeInput e = true -> loading (ui w) = false) ->
  (loading (ui w) = true -> input (ui w) = []) ->
  loading (ui (step w e)) = true -> input (ui (step w e)) = [].
Proof.
  intros He Hw. destruct e as [| v | | r | r].
  - destruct (mounted w) eqn:Hm.
    + rewrite step_ClickToggle by assumption.
      destruct (displayable (toggled (ui w))); exact Hw.
    + rewrite step_user_unmounted; auto.
  - destruct (mounted w) eqn:Hm.
    + rewrite step_ChangeInput by assumption. simpl.
      rewrite (He eq_refl). discriminate.
    + rewrite step_user_unmounted; auto.
  - destruct (mounted w) eqn:Hm.
    + destruct (rejected (ui w)) eqn:Hr.
      * rewrite step_Submit_rejected; assumption.
      * rewrite step_Submit_accepted by assumption. reflexivity.
    + rewrite step_user_unmounted; auto.
  - destruct (sessionPending w) eqn:Hsp; [|simpl; rewrite Hsp; exact Hw].
    destruct (mounted w) eqn:Hm.
    + destruct (step_SessionSettled_cases w r Hsp Hm) as [[v ->]|[err ->]]; exact Hw.
    + destruct (unmounted_step w (SessionSettled r) Hm) as [_ ->]. exact Hw.
  - destruct (smartPending w) as [|n] eqn:Hn; [simpl; rewrite Hn; exact Hw|].
    destruct (mounted w) eqn:Hm.
    + assert (Hn' : smartPending w <> O) by congruence.
      destruct (step_SmartSettled_cases w r Hm Hn') as [(m & _ & _ & ->) | ->];
        [discriminate | exact Hw].
    + destruct (unmounted_step w (SmartSettled r) Hm) as [_ ->]. exact Hw.
Qed.

Lemma act_locked (w : World) (a : Action) :
  (loading (ui w) = true -> input (ui w) = []) ->
  loading (ui (act w a)) = true -> input (ui (act w a)) = [].
Proof.
  intros Hw. destruct a as [g|e]; simpl.
  - destruct (mounted w && offered (view (ui w)) g) eqn:Hg; [|exact Hw].
    apply andb_true_iff in Hg as [_ Hg].
    destruct (handlerOf g) as [e|] eqn:He; [|exact Hw].
    apply step_locked; [|exact Hw].
    destruct e; try discriminate. intros _.
    eapply offered_typing; eassumption.
  - destruct (isSessionSettled e || isSmartSettled e) eqn:He; [|exact Hw].
    apply step_locked; [|exact Hw].
    destruct e; simpl in *; discriminate.
Qed.

Lemma play_locked (w : World) (actions : list Action) :
  (loading (ui w) = true -> input (ui w) = []) ->
  loading (ui (play w actions)) = true -> input (ui (play w actions)) = [].
Proof.
  revert w. induction actions as [|a actions IH]; intros w Hw; [exact Hw|].
  change (play w (a :: actions)) with (play (act w a) actions).
  apply IH, act_locked, Hw.
Qed.

(** X13. Driven through its view (a gesture reaches a handler only if the
    view offers its element, enabled), the widget is locked while a request is
    in flight: whenever [loading] is true the draft is empty, and the only
    gestures the view offers are the clicks that open or close the panel; the
    field takes no text and no key, the button no click. *)
Theorem locked_while_loading (actions : list Action) (g : Gesture) :
  let w := play init actions in
  loading (ui w) = true ->
  input (ui w) = [] /\
  (offered (view (ui w)) g = true -> handlerOf g = Some ClickToggle).
Proof.
  intros w Hl. split.
  - apply play_locked; [discriminate | exact Hl].
  - unfold view. rewrite Hl, orb_true_r.
    destruct (negb (isOpen (ui w))); destruct g; simpl; try discriminate; reflexivity.
Qed.

(** ** Requests in flight *)

Lemma offered_send (s : State) (g : Gesture) :
  offered (view s) g = true -> handlerOf g = Some Submit -> isOpen s = true.
Proof.
  unfold view. destruct (isOpen s); [reflexivity|].
  destruct g; simpl; discriminate.
Qed.

Lemma handlerOf_user (g : Gesture) (e : Event) :
  handlerOf g = Some e -> isSessionSettled e = false /\ isSmartSettled e = false.
Proof.
  destruct g; simpl; try (intros [= <-]; auto).
  destruct (eqb key (lit "Enter")); [intros [= <-]; auto | discriminate].
Qed.

(** Driven through its view, the widget is never loading with a text in the
    transcript that cannot be rendered, and nothing is in flight once it is
    unmounted. *)
Lemma act_settled (w : World) (a : Action) :
  coherent w ->
  (allRenderable (messages (ui w)) = false -> loading (ui w) = false) ->
  (mounted w = false -> smartPending w = O) ->
  (allRenderable (messages (ui (act w a))) = false -> loading (ui (act w a)) = false) /\
  (mounted (act w a) = false -> smartPending (act w a) = O).
Proof.
  intros Hw H2 H3. destruct a as [g|e]; [simpl | unfold act].
  - destruct (mounted w && offered (view (ui w)) g) eqn:Hg; [|auto].
    apply andb_true_iff in Hg as [Hm Hoff].
    pose proof Hm as [_ Hd]%mounted_true.
    destruct (handlerOf g) as [e|] eqn:He; [|auto].
    destruct e as [| v | | r | r].
    + rewrite step_ClickToggle by assumption.
      destruct (displayable (toggled (ui w))) eqn:Hd'.
      * split; [exact H2|]. intros Hmf.
        rewrite mounted_mk_true in Hmf by exact Hd'. discriminate.
      * split; [exact H2|]. intros _. simpl.
        rewrite displayable_toggled in Hd'. apply orb_false_iff in Hd' as [_ Hr].
        apply coherent_idle; auto.
    + rewrite step_ChangeInput by assumption.
      split; [exact H2|]. intros Hmf.
      rewrite mounted_mk_true in Hmf by exact Hd. discriminate.
    + destruct (rejected (ui w)) eqn:Hr.
      * rewrite step_Submit_rejected by assumption. auto.
      * rewrite step_Submit_accepted by assumption.
        pose proof (offered_send _ _ Hoff He) as Ho.
        pose proof (mounted_open w Hm Ho) as Hall.
        split.
        -- rewrite allRenderable_submitted by exact Hall. discriminate.
        -- rewrite mounted_submitted by exact Hm. discriminate.
    + destruct (handlerOf_user _ _ He) as [Hs _]. discriminate Hs.
    + destruct (handlerOf_user _ _ He) as [_ Hs]. discriminate Hs.
  - destruct e as [| v | | r | r]; cbn [isSessionSettled isSmartSettled orb]; auto.
    + destruct (sessionPending w) eqn:Hsp; [|unfold step; rewrite Hsp; auto].
      destruct (coherent_session w Hw Hsp) as (_ & Hm & _).
      pose proof Hm as [_ Hd]%mounted_true.
      destruct (step_SessionSettled_cases w r Hsp Hm) as [[v ->]|[err ->]].
      * split; [exact H2|]. intros Hmf.
        rewrite mounted_mk_true in Hmf by exact Hd. discriminate.
      * split; [exact H2|]. intros Hmf.
        rewrite mounted_mk_true in Hmf by exact Hd. discriminate.
    + destruct (smartPending w) as [|n] eqn:Hn; [unfold step; rewrite Hn; auto|].
      destruct (mounted w) eqn:Hm; [|specialize (H3 eq_refl); discriminate].
      assert (Hn' : smartPending w <> O) by congruence.
      destruct (coherent_loading w Hw Hn') as (_ & Hp & _).
      destruct (step_SmartSettled_cases w r Hm Hn') as [(m & _ & Hshow & ->) | ->].
      * split; [reflexivity|]. intros Hmf.
        rewrite mounted_answered in Hmf by assumption. discriminate.
      * split; [exact H2|]. intros _. simpl. rewrite Hp. reflexivity.
Qed.

Lemma play_settled (w : World) (actions : list Action) :
  coherent w ->
  (allRenderable (messages (ui w)) = false -> loading (ui w) = false) ->
  (mounted w = false -> smartPending w = O) ->
  coherent (play w actions) /\
  (mounted (play w actions) = false -> smartPending (play w actions) = O).
Proof.
  revert w. induction actions as [|a actions IH]; intros w Hw H2 H3; [auto|].
  change (play w (a :: actions)) with (play (act w a) actions).
  destruct (act_settled w a Hw H2 H3) as [H2' H3'].
  apply IH; try assumption.
  destruct (act_step w a) as [-> | [e ->]]; [exact Hw | apply coherent_step, Hw].
Qed.

(** X1. At most one exchange is in flight.  After any sequence of handler
    calls and settlements no /smart request is in flight when [loading] is
    false, exactly one while the mounted widget is loading, and at most one
    when a render has thrown and left [loading] set.  When the widget is driven
    through its view, the number of /smart requests in flight is 1 while the
    mounted widget is loading, and 0 otherwise. *)
Theorem one_exchange_in_flight (events : list Event) (actions : list Action) :
  let w := run init events in
  let u := play init actions in
  match loading (ui w), mounted w with
  | false, _ => smartPending w = O
  | true, true => smartPending w = 1%nat
  | true, false => smartPending w = O \/ smartPending w = 1%nat
  end /\
  smartPending u = if mounted u && loading (ui u) then 1%nat else 0%nat.
Proof.
  intros w u. split.
  - pose proof (coherent_reachable events) as Hw. fold w in Hw.
    destruct (loading (ui w)) eqn:Hl.
    + destruct (mounted w) eqn:Hm.
      * apply (coherent_waiting w Hw); assumption.
      * destruct (coherent_pending w Hw) as [Hp | [Hp _]]; auto.
    + apply coherent_idle; assumption.
  - destruct (play_settled init actions coherent_init) as [Hu H3].
    + reflexivity.
    + discriminate.
    + fold u in Hu, H3. destruct (mounted u) eqn:Hm.
      * destruct (loading (ui u)) eqn:Hl; simpl.
        -- apply (coherent_waiting u Hu); assumption.
        -- apply coherent_idle; assumption.
      * apply H3. reflexivity.
Qed.

(** ** A whole exchange *)

Lemma step_SmartSettled_answerTo (w : World) (r : result Response) (m : Message) :
  mounted w = true -> smartPending w <> O -> answerTo r = Some m ->
  isOpen (ui w) = false \/ renderable (text m) = true ->
  sender m = bot /\ step w (SmartSettled r) = answered m w.
Proof.
  intros Hm Hn Ha Hshow. unfold answerTo in Ha.
  destruct (fetched_json r) as [data|e] eqn:Hf.
  - destruct (getProp data (lit "reply")) as [v|e] eqn:Hg; [|discriminate].
    injection Ha as <-. split; [reflexivity|].
    apply (step_SmartSettled_reply w r data v); auto.
  - injection Ha as <-. split; [reflexivity|].
    apply step_SmartSettled_failed; auto.
    apply requestFailed_fetched_json. eauto.
Qed.

Lemma exchange_answered (w : World) (between : list Event) (r : result Response)
    (answer : Message) :
  mounted w = true ->
  allRenderable (messages (ui w)) = true ->
  rejected (ui w) = false ->
  forallb (fun e => negb (isSmartSettled e)) between = true ->
  answerTo r = Some answer ->
  renderable (text answer) = true ->
  let w1 := run w (Submit :: between) in
  let w' := run w (Submit :: between ++ [SmartSettled r]) in
  sender answer = bot /\
  w' = answered answer w1 /\
  messages (ui w') = messages (ui w) ++ [userMessage (ui w); answer] /\
  loading (ui w') = false /\
  mounted w' = true /\
  smartPending w' = smartPending w /\
  List.filter isFetch (log w') =
    List.filter isFetch (log w)
    ++ [Fetch (smartRequest (text (userMessage (ui w))) (sessionId (ui w)))].
Proof.
  intros Hm Hall Hr Hb Ha Hshow w1 w'. subst w1 w'.
  destruct (exchange w between r Hm Hall Hr Hb) as [-> [Hm1 _ Hmsg Hp Hreq]].
  remember (run w (Submit :: between)) as w1 eqn:Hw1.
  assert (Hn : smartPending w1 <> O) by (rewrite Hp; discriminate).
  destruct (step_SmartSettled_answerTo w1 r answer Hm1 Hn Ha (or_intror Hshow))
    as [Hbot ->].
  split; [exact Hbot|]. split; [reflexivity|].
  split; [|split; [reflexivity|split; [apply mounted_answered; auto|split]]].
  - unfold answered. cbn [ui messages]. rewrite Hmsg. unfold submitted.
    cbn [ui messages]. rewrite <- app_assoc. reflexivity.
  - unfold answered. cbn [smartPending]. rewrite Hp. reflexivity.
  - unfold answered. cbn [log]. rewrite Hreq. unfold submitted. cbn [log].
    rewrite List.filter_app. reflexivity.
Qed.

(** X14. A [sendMessage] call whose preconditions hold, made with a
    transcript whose texts can all be rendered (as they can whenever the panel
    is open), any events but the settlement of a /smart request, then the
    settlement with an outcome whose bot message (the fallback, or the [reply]
    property of the body) can be rendered: the transcript is the one before the
    call followed by exactly two messages, the user message and that bot
    message; [loading] is false again, the widget is mounted, no request is in
    flight more than before the call, and the exchange has issued exactly one
    request. *)
Theorem exchange_appends_question_and_answer
    (w : World) (between : list Event) (r : result Response) (answer : Message) :
  mounted w = true ->
  allRenderable (messages (ui w)) = true ->
  rejected (ui w) = false ->
  forallb (fun e => negb (isSmartSettled e)) between = true ->
  answerTo r = Some answer ->
  renderable (text answer) = true ->
  let w' := run w (Submit :: between ++ [SmartSettled r]) in
  sender answer = bot /\
  messages (ui w') = messages (ui w) ++ [userMessage (ui w); answer] /\
  loading (ui w') = false /\
  mounted w' = true /\
  smartPending w' = smartPending w /\
  List.filter isFetch (log w') =
    List.filter isFetch (log w)
    ++ [Fetch (smartRequest (text (userMessage (ui w))) (sessionId (ui w)))].
Proof.
  intros Hm Hall Hr Hb Ha Hshow.
  destruct (exchange_answered w between r answer Hm Hall Hr Hb Ha Hshow)
    as (H1 & _ & H2 & H3 & H4 & H5 & H6).
  cbv zeta. auto 10.
Qed.

(** X15. The catch branch of [sendMessage].  A call whose preconditions hold,
    made with a transcript whose texts can all be rendered, any events but the
    settlement of a /smart request, then a request that fails ([fetch] rejects,
    or the body is not JSON): the transcript is the one before the call
    followed by the user message and one bot message carrying the fixed
    fallback text, [loading] is false, the widget is mounted, and the
    continuation has issued no request and written nothing to the console (the
    only request of the exchange is the one of the call: no retry). *)
Theorem failed_request_appends_the_fallback
    (w : World) (between : list Event) (r : result Response) :
  mounted w = true ->
  allRenderable (messages (ui w)) = true ->
  rejected (ui w) = false ->
  forallb (fun e => negb (isSmartSettled e)) between = true ->
  requestFailed r ->
  let w1 := run w (Submit :: between) in
  let w2 := run w (Submit :: between ++ [SmartSettled r]) in
  messages (ui w2) =
    messages (ui w) ++ [userMessage (ui w);
                        {| sender := bot; text := JStr fallbackText |}] /\
  loading (ui w2) = false /\
  mounted w2 = true /\
  smartPending w2 = smartPending w /\
  log w2 = log w1 /\
  List.filter isFetch (log w2) =
    List.filter isFetch (log w)
    ++ [Fetch (smartRequest (text (userMessage (ui w))) (sessionId (ui w)))].
Proof.
  intros Hm Hall Hr Hb Hf.
  assert (Ha : answerTo r = Some fallback).
  { apply requestFailed_fetched_json in Hf as [e He].
    unfold answerTo. rewrite He. reflexivity. }
  destruct (exchange_answered w between r fallback Hm Hall Hr Hb Ha eq_refl)
    as (_ & H1 & H2 & H3 & H4 & H5 & H6).
  cbv zeta. rewrite H1 at 5. cbn [answered log]. auto 10.
Qed.

(** ** Showing and hiding the panel *)

Lemma toggled_toggled (s : State) : toggled (toggled s) = s.
Proof. destruct s as [sid ms i l o]. unfold toggled. simpl. rewrite negb_involutive. reflexivity. Qed.

(** X16. Hiding the panel always works, and showing it works when every text
    of the transcript can be rendered: the click changes the visibility flag
    and nothing else (session id, transcript, draft, [loading], requests in
    flight and log stay as they are, so nothing is fetched), the widget stays
    mounted, and a second click gives back the world before the first. *)
Theorem toggle_changes_the_visibility_alone (w : World) :
  mounted w = true ->
  isOpen (ui w) = true \/ allRenderable (messages (ui w)) = true ->
  let w' := step w ClickToggle in
  w' = mkWorld (mkState (sessionId (ui w)) (messages (ui w)) (input (ui w))
                        (loading (ui w)) (negb (isOpen (ui w))))
               true (sessionPending w) (smartPending w) (log w) /\
  mounted w' = true /\
  step w' ClickToggle = w.
Proof.
  intros Hm Hshow.
  assert (Hall : allRenderable (messages (ui w)) = true).
  { destruct Hshow as [Ho | Hall]; [apply mounted_open; assumption | exact Hall]. }
  destruct (step_ClickToggle_renderable w Hm Hall) as [Hstep Hm'].
  cbv zeta. split; [exact Hstep|]. split; [exact Hm'|].
  destruct (step_ClickToggle_renderable (step w ClickToggle) Hm') as [-> _].
  - rewrite Hstep. exact Hall.
  - rewrite Hstep. cbn [ui sessionPending smartPending log]. rewrite toggled_toggled.
    pose proof Hm as [Hal _]%mounted_true.
    destruct w as [s al sp n l]. simpl in *. subst al. reflexivity.
Qed.

(** ** The further properties at concrete inputs *)

Lemma no_session_nothing_sent_witness :
  let w := run init [ClickToggle; ChangeInput (lit "hello"); Submit] in
  messages (ui w) = [greeting] /\
  loading (ui w) = false /\
  smartPending w = O /\
  List.filter isFetch (log w) = [Fetch sessionRequest].
Proof.
  apply (no_session_nothing_sent [ClickToggle; ChangeInput (lit "hello"); Submit]).
  reflexivity.
Defined.

(** A whole exchange after the session id "abc" was stored. *)
Lemma only_startSession_sets_the_session_id_witness :
  let reply := Ok {| status := 200;
                     parsed := Some (JObj [(lit "reply", JStr (lit "hi"))]) |} in
  let w := run (step init (SessionSettled sessionGranted))
               [ClickToggle; ChangeInput (lit "hello"); Submit; SmartSettled reply;
                ClickToggle] in
  sessionId (ui w) = JStr (lit "abc").
Proof.
  apply (only_startSession_sets_the_session_id (step init (SessionSettled sessionGranted))).
  reflexivity.
Defined.

Lemma resubmit_without_typing_is_noop_witness :
  let reply := Ok {| status := 200;
                     parsed := Some (JObj [(lit "reply", JStr (lit "hi"))]) |} in
  let w' := run (step (readyWith (lit "hello")) Submit)
                [SmartSettled reply; ClickToggle; ClickToggle] in
  input (ui w') = [] /\ step w' Submit = w'.
Proof.
  apply (resubmit_without_typing_is_noop (readyWith (lit "hello"))); reflexivity.
Defined.

(** An error object sent with status 500, the panel open: the bot message
    has the text [undefined]. *)
Lemma smart_reply_is_the_reply_property_witness :
  let w := step (readyWith (lit "hello")) Submit in
  step w (SmartSettled (Ok {| status := 500;
                              parsed := Some (JObj [(lit "detail", JStr (lit "oops"))]) |})) =
  answered {| sender := bot; text := Undefined |} w.
Proof.
  apply (smart_reply_is_the_reply_property (step (readyWith (lit "hello")) Submit) 500
           (JObj [(lit "detail", JStr (lit "oops"))])); [reflexivity | | ]; discriminate.
Defined.

(** A draft typed before the session request has settled. *)
Lemma send_button_mirrors_the_guard_witness :
  let s := ui (run init [ClickToggle; ChangeInput (lit "hello")]) in
  exists rows spinner field button,
    view s = OpenView rows spinner field button /\
    buttonDisabled button = false /\
    placeholder field = lit "Connecting..." /\
    sendMessage_call s = ([], []).
Proof.
  destruct (send_button_mirrors_the_guard
              (ui (run init [ClickToggle; ChangeInput (lit "hello")])) eq_refl)
    as (rows & spinner & field & button & Hv & _ & _ & _ & _ & _ & _ & Hno & _).
  destruct (Hno eq_refl) as [Hp Hs].
  exists rows, spinner, field, button.
  repeat apply conj; try assumption.
  injection Hv as <- <- <- <-. reflexivity.
Defined.

Lemma locked_while_loading_witness :
  let actions := [Network (SessionSettled sessionGranted); User ClickLauncher;
                  User (TypeText (lit "hello")); User ClickSend;
                  User (TypeText (lit "more")); User (PressKey (lit "Enter"))] in
  let w := play init actions in
  loading (ui w) = true /\
  input (ui w) = [] /\
  (offered (view (ui w)) ClickMinimise = true ->
   handlerOf ClickMinimise = Some ClickToggle).
Proof.
  split; [reflexivity|].
  apply (locked_while_loading
           [Network (SessionSettled sessionGranted); User ClickLauncher;
            User (TypeText (lit "hello")); User ClickSend;
            User (TypeText (lit "more")); User (PressKey (lit "Enter"))]
           ClickMinimise).
  reflexivity.
Defined.

(** A send of "hello" answered, with status 404, by a body without [reply]. *)
Lemma exchange_appends_question_and_answer_witness :
  let r := Ok {| status := 404; parsed := Some (JObj []) |} in
  let answer := {| sender := bot; text := Undefined |} in
  let w := readyWith (lit "hello") in
  let w' := run w (Submit :: [ClickToggle] ++ [SmartSettled r]) in
  sender answer = bot /\
  messages (ui w') = messages (ui w) ++ [userMessage (ui w); answer] /\
  loading (ui w') = false /\
  mounted w' = true /\
  smartPending w' = smartPending w /\
  List.filter isFetch (log w') =
    List.filter isFetch (log w)
    ++ [Fetch (smartRequest (text (userMessage (ui w))) (sessionId (ui w)))].
Proof.
  apply (exchange_appends_question_and_answer (readyWith (lit "hello")) [ClickToggle]
           (Ok {| status := 404; parsed := Some (JObj []) |})
           {| sender := bot; text := Undefined |});
    reflexivity.
Defined.

(** A send of " hello " whose [fetch] rejects. *)
Lemma failed_request_appends_the_fallback_witness :
  let w := readyWith (lit " hello ") in
  let w2 := run w [Submit; SmartSettled (Throw FetchRejected)] in
  messages (ui w2) =
    [greeting;
     {| sender := user; text := JStr (lit "hello") |};
     {| sender := bot; text := JStr fallbackText |}] /\
  loading (ui w2) = false /\
  mounted w2 = true /\
  List.filter isFetch (log w2) =
    [Fetch sessionRequest;
     Fetch (smartRequest (JStr (lit "hello")) (JStr (lit "abc")))].
Proof.
  destruct (failed_request_appends_the_fallback (readyWith (lit " hello ")) []
              (Throw FetchRejected) eq_refl eq_refl eq_refl eq_refl I)
    as (Hmsg & Hload & Hm & _ & _ & Hreq).
  repeat apply conj; [exact Hmsg | exact Hload | exact Hm | exact Hreq].
Defined.

(** The panel minimised and shown again, a draft typed. *)
Lemma toggle_changes_the_visibility_alone_witness :
  let w := readyWith (lit "hello") in
  isOpen (ui w) = true /\
  isOpen (ui (step w ClickToggle)) = false /\
  mounted (step w ClickToggle) = true /\
  step (step w ClickToggle) ClickToggle = w.
Proof.
  destruct (toggle_changes_the_visibility_alone (readyWith (lit "hello")) eq_refl
              (or_introl eq_refl)) as (Hstep & Hm & Hback).
  split; [reflexivity|]. split; [rewrite Hstep; reflexivity|].
  split; [exact Hm | exact Hback].
Defined.
